(** * PyRates: the Fortran backend, the node IR and the equation layer

    A shallow embedding of the parts of PyRates that the specification
    talks about:

    - [pyrates/backend/fortran_backend.py]: the operator table built by
      [FortranBackend.__init__], the layer clean-up at the start of
      [FortranBackend.compile], [FortranBackend._create_op],
      [FortranBackend._compare_shapes] and the line wrapping of
      [FortranGen.add_code_line] / [FortranGen._find_first_op];
    - [pyrates/ir/node.py]: [VectorizedNodeIR.__init__];
    - the equation/solver layer and the slice syntax of [pyrates.parser],
      which [tests/core/test_parser.py] exercises; the module itself is not
      among the source files, so this part is modelled from the
      specification.

    Python values are modelled as follows: [str] as [string], tuples and
    lists as [list], dictionaries as [gmap], [None]-able entries as
    [option], exceptions as the left summand of a sum type. *)

From Stdlib Require Import String Ascii List Arith ZArith QArith Lia.
From stdpp Require Import gmap strings list fin_maps pretty.

Local Open Scope string_scope.
Local Open Scope nat_scope.

(* ===================================================================== *)
(** * Part I: definitions                                                  *)
(* ===================================================================== *)

(** ** Python string primitives *)

Module PyStr.

(** [s[:n]] *)
Fixpoint str_take (n : nat) (s : string) : string :=
  match n, s with
  | S n', String c s' => String c (str_take n' s')
  | _, _ => EmptyString
  end.

(** [s[n:]] *)
Fixpoint str_drop (n : nat) (s : string) : string :=
  match n, s with
  | S n', String _ s' => str_drop n' s'
  | _, _ => s
  end.

(** [s[start:stop]] for non-negative [start] and [stop]; out-of-range
    bounds are clipped as Python does. *)
Definition slice (s : string) (start stop : nat) : string :=
  str_take (stop - start) (str_drop start s).

(** [s[::-1]] *)
Fixpoint str_rev_acc (s acc : string) : string :=
  match s with
  | EmptyString => acc
  | String c s' => str_rev_acc s' (String c acc)
  end.

Definition str_rev (s : string) : string := str_rev_acc s EmptyString.

(** [s.index(sub)]: position of the first occurrence of [sub] in [s];
    [None] stands for the [ValueError] of a missing substring. *)
Fixpoint find (sub s : string) : option nat :=
  if String.prefix sub s then Some 0
  else match s with
       | EmptyString => None
       | String _ s' => S <$> find sub s'
       end.

(** [sub in s] *)
Definition contains (sub s : string) : bool :=
  match find sub s with Some _ => true | None => false end.

(** [c * n] *)
Fixpoint str_repeat (c : string) (n : nat) : string :=
  match n with
  | 0 => EmptyString
  | S n' => c ++ str_repeat c n'
  end.

(** [sep.join(l)] *)
Definition join (sep : string) (l : list string) : string := String.concat sep l.

(** [EmptyString.join(l)]: the texts of [l] one after the other. *)
Definition str_concat (l : list string) : string := foldr String.append EmptyString l.

Definition tab : string := String (ascii_of_nat 9) EmptyString.
Definition newline : string := String (ascii_of_nat 10) EmptyString.

End PyStr.

(** ** Python objects and exceptions *)

(** What the backend inspects of an operand or argument: whether it has a
    [shape] attribute (and its value, a tuple of dimensions), whether it has
    a [short_name] attribute, and the texts [str(type(x))] and [str(x)]. *)
Record pyobj : Type := PyObj {
  shape : option (list nat);
  short_name : option string;
  type_str : string;
  str_repr : string
}.

(** A Python [str] used as an argument. *)
Definition py_str (s : string) : pyobj :=
  {| shape := None; short_name := None; type_str := "<class 'str'>"; str_repr := s |}.

(** An array of a given shape, and a Python number, which has no shape. *)
Definition array_of_shape (sh : list nat) : pyobj :=
  {| shape := Some sh; short_name := None;
     type_str := "<class 'numpy.ndarray'>"; str_repr := "array" |}.

Definition shapeless_scalar : pyobj :=
  {| shape := None; short_name := None;
     type_str := "<class 'float'>"; str_repr := "5.0" |}.

Inductive exn : Type :=
| NotImplementedError (msg : string)
| KeyError (key : string)
| IndexError
| AttributeError (attr : string)
| ValueError
| SyntaxError (msg : string)
| UndefinedVariableError (name : string)
| ZeroDivisionError.

(** The outcome is a raised [NotImplementedError]. *)
Definition is_not_implemented {A : Type} (r : exn + A) : Prop :=
  match r with
  | inl (NotImplementedError _) => True
  | _ => False
  end.

(** ** [FortranBackend] *)

Module FortranBackend.

(** *** The operator table of [__init__] *)

(** An entry [{'name': ..., 'call': ...}] of the operator table. *)
Record op_entry : Type := OpEntry { name : string; call : string }.

#[global] Instance op_entry_eq_dec : EqDecision op_entry.
Proof. solve_decision. Defined.

(** A dict display [{k1: v1, k2: v2, ...}]: the items are inserted from left
    to right, a later item replacing an earlier one with the same key. *)
Definition dict_of_items {V : Type} (items : list (string * V)) : gmap string V :=
  foldl (fun d kv => <[kv.1 := kv.2]> d) ∅ items.

(** [d.update(other)] *)
Definition dict_update {V : Type} (d other : gmap string V) : gmap string V :=
  other ∪ d.

(** The items of the display bound to [ops_f], in source order. *)
Definition ops_f_items : list (string * op_entry) :=
  [
    ("+", {| name := "fortran_add"; call := "+" |});
    ("-", {| name := "fortran_subtract"; call := "-" |});
    ("*", {| name := "fortran_multiply"; call := "*" |});
    ("/", {| name := "fortran_divide"; call := "/" |});
    ("%", {| name := "fortran_modulo"; call := "MODULO" |});
    ("^", {| name := "fortran_power"; call := "**" |});
    ("**", {| name := "fortran_power_float"; call := "**" |});
    ("@", {| name := "fortrandot"; call := EmptyString |});
    (".T", {| name := "fortrantranspose"; call := EmptyString |});
    (".I", {| name := "fortraninvert"; call := EmptyString |});
    (">", {| name := "fortrangreater"; call := ">" |});
    ("<", {| name := "fortranless"; call := "<" |});
    ("==", {| name := "fortranequal"; call := "==" |});
    ("!=", {| name := "fortran_not_equal"; call := "!=" |});
    (">=", {| name := "fortran_greater_equal"; call := ">=" |});
    ("<=", {| name := "fortran_less_equal"; call := "<=" |});
    ("=", {| name := "assign"; call := "=" |});
    ("+=", {| name := "assign_add"; call := EmptyString |});
    ("-=", {| name := "assign_subtract"; call := EmptyString |});
    ("*=", {| name := "assign_multiply"; call := EmptyString |});
    ("/=", {| name := "assign_divide"; call := EmptyString |});
    ("neg", {| name := "negative"; call := "-" |});
    ("sin", {| name := "fortran_sin"; call := "SIN" |});
    ("cos", {| name := "fortran_cos"; call := "COS" |});
    ("tan", {| name := "fortran_tan"; call := "TAN" |});
    ("atan", {| name := "fortran_atan"; call := "ATAN" |});
    ("abs", {| name := "fortran_abs"; call := "ABS" |});
    ("sqrt", {| name := "fortran_sqrt"; call := "SQRT" |});
    ("sq", {| name := "fortran_square"; call := EmptyString |});
    ("exp", {| name := "fortran_exp"; call := "EXP" |});
    ("max", {| name := "fortran_max"; call := "MAX" |});
    ("min", {| name := "fortran_min"; call := "MIN" |});
    ("argmax", {| name := "fortran_transpose"; call := "ARGMAX" |});
    ("argmin", {| name := "fortran_argmin"; call := "ARGMIN" |});
    ("round", {| name := "fortran_round"; call := EmptyString |});
    ("sum", {| name := "fortran_sum"; call := EmptyString |});
    ("mean", {| name := "fortran_mean"; call := EmptyString |});
    ("concat", {| name := "fortran_concatenate"; call := EmptyString |});
    ("reshape", {| name := "fortran_reshape"; call := EmptyString |});
    ("append", {| name := "fortran_append"; call := EmptyString |});
    ("shape", {| name := "fortran_shape"; call := EmptyString |});
    ("dtype", {| name := "fortran_dtype"; call := EmptyString |});
    ("squeeze", {| name := "fortran_squeeze"; call := EmptyString |});
    ("expand", {| name := "fortran_expand"; call := EmptyString |});
    ("roll", {| name := "fortran_roll"; call := EmptyString |});
    ("cast", {| name := "fortran_cast"; call := EmptyString |});
    ("randn", {| name := "fortran_randn"; call := EmptyString |});
    ("ones", {| name := "fortran_ones"; call := EmptyString |});
    ("zeros", {| name := "fortran_zeros"; call := EmptyString |});
    ("range", {| name := "fortran_arange"; call := EmptyString |});
    ("softmax", {| name := "pyrates_softmax"; call := EmptyString |});
    ("sigmoid", {| name := "pyrates_sigmoid"; call := EmptyString |});
    ("tanh", {| name := "fortran_tanh"; call := "TANH" |});
    ("index", {| name := "pyrates_index"; call := "pyrates_index" |});
    ("mask", {| name := "pyrates_mask"; call := EmptyString |});
    ("group", {| name := "pyrates_group"; call := EmptyString |});
    ("asarray", {| name := "fortran_asarray"; call := EmptyString |});
    ("no_op", {| name := "pyrates_identity"; call := EmptyString |});
    ("interpolate", {| name := "pyrates_interpolate"; call := EmptyString |});
    ("interpolate_1d", {| name := "pyrates_interpolate_1d"; call := EmptyString |});
    ("interpolate_nd", {| name := "pyrates_interpolate_nd"; call := EmptyString |})
  ].

(** [ops_f] as passed on to the base initialiser: the display, updated with
    the caller's [ops] when that argument is a non-empty dictionary. *)
Definition ops_f (ops : option (gmap string op_entry)) : gmap string op_entry :=
  let d := dict_of_items ops_f_items in
  match ops with
  | Some o => if bool_decide (o = ∅) then d else dict_update d o
  | None => d
  end.

(** The symbols of the base math operations and of the comparisons. *)
Definition arithmetic_symbols : list string := ["+"; "-"; "*"; "/"; "%"; "^"; "**"].
Definition comparison_symbols : list string := [">"; "<"; "=="; "!="; ">="; "<="].

(** *** The preparation phase of [compile] *)

Section CompilePreparation.

(** Operation nodes; an entry of a layer is a node or [None]. *)
Context {Op : Type}.

(** Every layer is a list object of its own, and [self.layers] is a list of
    references to such objects. The loop removes entries through these
    references, so the layers live in a store: a reference is a number, and
    the store gives the current content of the list behind every
    reference. Two entries of [self.layers] may refer to the same list. *)
Definition ref : Type := nat.
Definition store : Type := ref -> list (option Op).

(** The store after the list behind [r] has changed to [l]. *)
Definition store_set (h : store) (r : ref) (l : list (option Op)) : store :=
  fun r' => if r' =? r then l else h r'.

(** [l.index(None)]; [None] stands for the [ValueError] of a list without
    such an entry. *)
Fixpoint index_None (l : list (option Op)) : option nat :=
  match l with
  | [] => None
  | None :: _ => Some 0
  | Some _ :: l' => S <$> index_None l'
  end.

(** [l.pop(i)] for [0 <= i], as far as the list is concerned; [None] stands
    for the [IndexError] of an index out of range. *)
Definition list_pop {A : Type} (i : nat) (l : list A) : option (list A) :=
  if i <? length l then Some (delete i l) else None.

(** [for op in layer.copy(): if op is None: layer.pop(layer.index(op))],
    where [snapshot] is what remains of the copy and [layer] the reference
    to the list that is changed. *)
Fixpoint remove_none_ops (snapshot : list (option Op)) (layer : ref) (h : store)
  : exn + store :=
  match snapshot with
  | [] => inr h
  | Some _ :: snapshot' => remove_none_ops snapshot' layer h
  | None :: snapshot' =>
      match index_None (h layer) with
      | None => inl ValueError
      | Some i =>
          match list_pop i (h layer) with
          | None => inl IndexError
          | Some l' => remove_none_ops snapshot' layer (store_set h layer l')
          end
      end
  end.

(** [for layer_idx, layer in enumerate(self.layers.copy()): ...], where
    [snapshot] is what remains of the copy of [self.layers]. *)
Fixpoint prepare_loop (snapshot : list ref) (new_layer_idx : nat)
    (self_layers : list ref) (h : store) : exn + (list ref * store) :=
  match snapshot with
  | [] => inr (self_layers, h)
  | layer :: snapshot' =>
      match remove_none_ops (h layer) layer h with
      | inl e => inl e
      | inr h' =>
          if length (h' layer) =? 0 then
            match list_pop new_layer_idx self_layers with
            | None => inl IndexError
            | Some self_layers' => prepare_loop snapshot' new_layer_idx self_layers' h'
            end
          else prepare_loop snapshot' (new_layer_idx + 1) self_layers h'
      end
  end.

(** The block "remove empty layers and operators" of [compile]. *)
Definition compile_prepare (self_layers : list ref) (h : store)
  : exn + (list ref * store) :=
  prepare_loop self_layers 0 self_layers h.

(** The entries of a layer that are operations. *)
Definition non_None (l : list (option Op)) : list (option Op) :=
  filter (fun op => is_Some op) l.

Fixpoint count_None (l : list (option Op)) : nat :=
  match l with
  | [] => 0
  | None :: l' => S (count_None l')
  | Some _ :: l' => count_None l'
  end.

(** With respect to the store [h0] at the start of [compile]: a layer is
    kept when some operation is left in it. *)
Definition kept_layer (h0 : store) (r : ref) : Prop := non_None (h0 r) <> [].

(** The layers still are what they were at the start, or have lost their
    [None] entries already. *)
Definition partly_cleaned (h0 h : store) : Prop :=
  forall r, h r = h0 r \/ h r = non_None (h0 r).

End CompilePreparation.

(** *** The backend object *)

(** Class attributes. *)
Definition idx_l : string := "(".
Definition idx_r : string := ")".
Definition idx_start : nat := 1.

(** The attributes of a backend instance that [_create_op] reads:
    [self.ops], the keys of [self.dtypes] in iteration order, and
    [self.name]. *)
Record backend : Type := Backend {
  ops : gmap string op_entry;
  dtypes : list string;
  backend_name : string
}.

(** *** [_create_op] *)

(** An operation node, represented by the constructor call that creates it:
    the class, then [call], [name], the node's own name and the positional
    arguments; the assignment and index nodes also receive the index
    brackets. *)
Inductive op_node : Type :=
| FortranAssignOp (op_call op_name node_name : string) (args : list pyobj)
                  (l r : string)
| FortranIndexOp (op_call op_name node_name : string) (args : list pyobj)
                 (l r : string)
| FortranOp (op_call op_name node_name : string) (args : list pyobj).

Definition not_implemented_msg (op bname : string) : string :=
  "The operator `" ++ op ++ "` is not implemented for this backend (" ++ bname
  ++ "). Please consider passing the required operation to the backend "
  ++ "initialization or choose another backend.".

Definition assign_symbols : list string := ["="; "+="; "-="; "*="; "/="].

(** The loop of the [cast] branch: the first data type name that occurs in
    [str(args[1])] replaces that argument by the text [np.<dtype>]. *)
Fixpoint cast_args (dts : list string) (args : list pyobj) : exn + list pyobj :=
  match dts with
  | [] => inr args
  | dtype :: dts' =>
      match args !! 1 with
      | None => inl IndexError
      | Some a1 =>
          if PyStr.contains dtype (str_repr a1)
          then inr (<[1 := py_str ("np." ++ dtype)]> args)
          else cast_args dts' args
      end
  end.

(** [",".join([f"{idx.short_name}[:,{i}]" for i in range(idx.shape[1])])] *)
Definition idx_str_of (idx : pyobj) : exn + string :=
  match shape idx with
  | None => inl (AttributeError "shape")
  | Some sh =>
      match sh !! 1 with
      | None => inl IndexError
      | Some n =>
          match n with
          | 0 => inr EmptyString
          | S _ =>
              match short_name idx with
              | None => inl (AttributeError "short_name")
              | Some sn =>
                  inr (PyStr.join ","
                         (map (fun i => sn ++ "[:," ++ pretty i ++ "]") (seq 0 n)))
              end
          end
      end
  end.

(** The test that guards the rewriting of the arguments of an assignment:
    [len(args) > 2 and hasattr(args[2], 'shape') and len(args[2].shape) > 1
     and 'bool' not in str(type(args[2]))]. *)
Definition indexed_update (args : list pyobj) : bool :=
  match args !! 2 with
  | Some a2 =>
      match shape a2 with
      | Some sh => (1 <? length sh) && negb (PyStr.contains "bool" (type_str a2))
      | None => false
      end
  | None => false
  end.

(** [op is literal], for the [str] object [op]. The test compares
    identities: the literals ["index"] and ["cast"] of the source are
    interned constants, so the test holds exactly when [op] is the interned
    object of that text; a [str] with the same text that was built at run
    time is another object. [interned] tells whether [op] is the interned
    object of its text. The lookup [self.ops[op]] and the test [op in [...]]
    compare the text. *)
Definition is_literal (op : string) (interned : bool) (literal : string) : bool :=
  interned && bool_decide (op = literal).

Section CreateOp.

(** The rest of the backend state (variables, layers), owned by the base
    class [NumpyBackend], and the two base-class methods that [_create_op]
    calls on it; they live in [numpy_backend.py]. *)
Context {St : Type}.
Variable add_var : string -> string -> pyobj -> St -> exn + (pyobj * St).
Variable _process_update_args_old :
  pyobj -> pyobj -> pyobj -> St -> exn + ((pyobj * pyobj * pyobj) * St).

Definition _create_op (self : backend) (st : St) (op : string) (interned : bool)
    (node_name : string) (args : list pyobj) : exn + (op_node * St) :=
  match ops self !! op with
  | None => inl (KeyError op)
  | Some entry =>
      if bool_decide (call entry = EmptyString)
      then inl (NotImplementedError (not_implemented_msg op (backend_name self)))
      else if bool_decide (op ∈ assign_symbols) then
        if indexed_update args then
          match args with
          | a0 :: a1 :: a2 :: _ =>
              match (match short_name a2 with
                     | None => add_var "state_var" "idx" a2 st
                     | Some _ => inr (a2, st)
                     end) with
              | inl e => inl e
              | inr (idx, st1) =>
                  match _process_update_args_old a0 a1 idx st1 with
                  | inl e => inl e
                  | inr ((var, upd, idx'), st2) =>
                      match idx_str_of idx' with
                      | inl e => inl e
                      | inr idx_str =>
                          inr (FortranAssignOp (call entry) (name entry) node_name
                                 [var; upd; py_str idx_str; idx'] idx_l idx_r, st2)
                      end
                  end
              end
          | _ => inl IndexError
          end
        else inr (FortranAssignOp (call entry) (name entry) node_name args
                    idx_l idx_r, st)
      else if is_literal op interned "index" then
        inr (FortranIndexOp (call entry) (name entry) node_name args idx_l idx_r, st)
      else if is_literal op interned "cast" then
        match cast_args (dtypes self) args with
        | inl e => inl e
        | inr args' => inr (FortranOp (call entry) (name entry) node_name args', st)
        end
      else inr (FortranOp (call entry) (name entry) node_name args, st)
  end.

End CreateOp.

(** A backend holding the default operator table, and base-class methods
    that hand their arguments back. *)
Definition default_backend : backend :=
  {| ops := ops_f None; dtypes := ["float32"; "float64"; "int32"; "int64"; "bool"];
     backend_name := "net_0" |}.

Definition add_var_id (vtype nm : string) (value : pyobj) (s : unit)
  : exn + (pyobj * unit) := inr (value, s).

Definition process_update_args_id (var upd idx : pyobj) (s : unit)
  : exn + ((pyobj * pyobj * pyobj) * unit) := inr ((var, upd, idx), s).

(** *** [_compare_shapes] *)

Definition _compare_shapes (op1 op2 : pyobj) (index : bool) : bool :=
  match shape op1, shape op2 with
  | Some shape1, Some shape2 =>
      if bool_decide (shape1 = shape2) then true
      else if (1 <? length shape1) && (1 <? length shape2) then true
      else if (length shape1 =? 0) && (length shape2 =? 0) then true
      else false
  | Some shape1, None =>
      if 0 <? sum_list shape1 then false else true
  | None, _ => true
  end.

(** The three ways in which two shapes are accepted. *)
Definition shapes_accepted (shape1 shape2 : list nat) : Prop :=
  shape1 = shape2
  \/ (1 < length shape1 /\ 1 < length shape2)
  \/ (length shape1 = 0 /\ length shape2 = 0).

End FortranBackend.

(** ** [FortranGen] *)

Module FortranGen.

(** The state of a code generator: the list of code pieces appended so far
    and the indentation level. *)
Record CodeGen : Type := mkCodeGen { code : list string; lvl : nat }.

Definition code_append (self : CodeGen) (piece : string) : CodeGen :=
  {| code := code self ++ [piece]; lvl := lvl self |}.

(** Modelled from the spec: [CodeGen.add_linebreak] belongs to the base
    class in [numpy_backend.py]; it appends a line break to the generated
    code, which is the piece that [add_code_line] looks for at the end of
    [self.code]. *)
Definition add_linebreak (self : CodeGen) : CodeGen :=
  code_append self PyStr.newline.

(** The column budget [n] of [add_code_line]. *)
Definition n : nat := 60.

(** The prefix of a continuation line. *)
Definition continuation : string := "     & ".

Definition wrap_ops : list string :=
  ["+"; "-"; "*"; "/"; "**"; "^"; "%"; "<"; ">"; "=="; "!="; "<="; ">="].

Definition _find_first_op (code : string) (start stop : nat) : exn + nat :=
  if stop <? String.length code then
    let code_tmp := PyStr.slice code start stop in
    let indices := omap (fun op => PyStr.find op code_tmp) wrap_ops in
    if negb (bool_decide (indices = [])) && (0 <? max_list indices)
    then inr (max_list indices)
    else match PyStr.find " " (PyStr.str_rev code_tmp) with
         | Some i => inr (String.length code_tmp - 1 - i)
         | None => inl ValueError
         end
  else inr stop.

(** The text that is wrapped: the code string, indented when the last piece
    of the generated code is a line break. *)
Definition code_line_of (self : CodeGen) (code_str : string) : string :=
  match last (code self) with
  | Some piece =>
      if bool_decide (piece = PyStr.newline)
      then PyStr.str_repeat PyStr.tab (lvl self) ++ code_str
      else code_str
  | None => code_str
  end.

(** The [while idx < n] loop of [add_code_line]. The loop need not
    terminate, so it is run with a bound on the number of iterations:
    [None] means that the bound was reached. *)
Fixpoint wrap_loop (fuel : nat) (code_line : string) (idx : nat) (self : CodeGen)
  : option (exn + CodeGen) :=
  if idx <? n then
    match fuel with
    | 0 => None
    | S fuel' =>
        let self1 := add_linebreak self in
        match _find_first_op code_line idx (idx + n) with
        | inl e => Some (inl e)
        | inr idx_new =>
            wrap_loop fuel' code_line (idx + idx_new)
              (code_append self1
                 (continuation ++ PyStr.slice code_line idx (idx + idx_new)))
        end
    end
  else Some (inr self).

Definition add_code_line (fuel : nat) (self : CodeGen) (code_str : string)
  : option (exn + CodeGen) :=
  let code_line := code_line_of self code_str in
  if n <? String.length code_line then
    match _find_first_op code_line 0 n with
    | inl e => Some (inl e)
    | inr idx =>
        wrap_loop fuel code_line idx
          (code_append self (PyStr.slice code_line 0 idx))
    end
  else Some (inr (code_append self code_line)).

(** The pieces of a wrapped line as they are appended: the first chunk, then
    for every later chunk a line break and the chunk behind the continuation
    prefix. *)
Definition continuation_pieces (chunks : list string) : list string :=
  flat_map (fun c => [PyStr.newline; continuation ++ c]) chunks.

(** A fresh generator, and a generator after a line break at indentation
    level 1, as inside the body of a generated subroutine. *)
Definition new_gen : CodeGen := {| code := []; lvl := 0 |}.
Definition indented_gen : CodeGen := {| code := [PyStr.newline]; lvl := 1 |}.

(** Code lines used as examples: an equation of 105 characters, a
    declaration that [compile] emits in pyauto mode, a call with a long
    function name, and an assignment without blanks. *)
Definition long_equation : string :=
  "y_delta(1) = -(membrane_potential_exc_pop - reversal_potential_exc_pop)/time_constant_exc + input_current".
Definition jacobian_declaration : string :=
  "double precision, intent(inout) :: dfdu(ndim,ndim), dfdp(ndim,*)".
Definition long_call : string :=
  "y = a_very_long_function_name_for_the_right_hand_side_of_the_equation(x)".
Definition dense_assignment : string :=
  "r_e_delta_of_the_first_excitatory_population_in_the_network=0".

End FortranGen.

(** ** [pyrates/ir/node.py] *)

Module NodeIR.

(** A [NodeIR] object: the template (kept by the base class), the operator
    graph, and [values], which is [None] unless a dictionary was passed to
    the constructor. The dictionary maps operator keys to dictionaries from
    variable keys to values. *)
Record NodeIR (T G V : Type) : Type := mkNodeIR {
  template : T;
  _op_graph : G;
  values : option (gmap string (gmap string V))
}.
Arguments mkNodeIR {T G V}.
Arguments template {T G V}.
Arguments _op_graph {T G V}.
Arguments values {T G V}.

(** The property [op_graph]. *)
Definition op_graph {T G V : Type} (self : NodeIR T G V) : G := _op_graph self.

End NodeIR.

Module VectorizedNodeIR.

Record VectorizedNodeIR (T G V : Type) : Type := mkVectorizedNodeIR {
  template : T;
  _op_graph : G;
  values : gmap string (gmap string (list V))
}.
Arguments mkVectorizedNodeIR {T G V}.
Arguments template {T G V}.
Arguments _op_graph {T G V}.
Arguments values {T G V}.

Section Init.
Context {T G V : Type}.

(** [OperatorGraph.copy], defined with the operator graph. *)
Variable graph_copy : G -> G.

(** [value] becomes [[value]]. *)
Definition wrap (value : V) : list V := [value].

(** [wrap] under every variable key of one operator. *)
Definition wrap_dict (value_dict : gmap string V) : gmap string (list V) :=
  wrap <$> value_dict.

(** The dictionaries that the loops of [__init__] work on: the dictionary
    behind [node_ir.values], which is read, and the two dictionaries that
    the constructor creates, [values] and the current [op_values]. *)
Record frame : Type := mkFrame {
  node_values : gmap string (gmap string V);
  new_values : gmap string (gmap string (list V));
  op_values : gmap string (list V)
}.

(** [op_values[var_key] = [value]] *)
Definition set_op_value (fr : frame) (item : string * V) : frame :=
  {| node_values := node_values fr;
     new_values := new_values fr;
     op_values := <[item.1 := [item.2]]> (op_values fr) |}.

(** [copy(d)] of a dictionary: a new dictionary with the same items. *)
Definition copy (d : gmap string (list V)) : gmap string (list V) := d.

(** The body of the outer loop, for one item of [node_ir.values]. *)
Definition vectorize_operator (fr : frame) (item : string * gmap string V) : frame :=
  let fr1 := {| node_values := node_values fr;
                new_values := new_values fr;
                op_values := ∅ |} in
  let fr2 := foldl set_op_value fr1 (map_to_list item.2) in
  {| node_values := node_values fr2;
     new_values := <[item.1 := copy (op_values fr2)]> (new_values fr2);
     op_values := op_values fr2 |}.

(** [VectorizedNodeIR.__init__]: the new object, together with the source
    node as it is after the call. *)
Definition __init__ (node_ir : NodeIR.NodeIR T G V)
  : exn + (VectorizedNodeIR T G V * NodeIR.NodeIR T G V) :=
  let op_graph' := graph_copy (NodeIR.op_graph node_ir) in
  match NodeIR.values node_ir with
  | None => inl (AttributeError "items")
  | Some d =>
      let fr0 := {| node_values := d; new_values := ∅; op_values := ∅ |} in
      let fr := foldl vectorize_operator fr0 (map_to_list (node_values fr0)) in
      inr ({| template := NodeIR.template node_ir;
              _op_graph := op_graph';
              values := new_values fr |},
           {| NodeIR.template := NodeIR.template node_ir;
              NodeIR._op_graph := NodeIR._op_graph node_ir;
              NodeIR.values := Some (node_values fr) |})
  end.

End Init.

(** A node with one operator and two variables, and a node constructed
    without values. *)
Definition example_values : gmap string (gmap string Z) :=
  {[ "rate_op" := {[ "r" := 0%Z; "tau" := 10%Z ]} ]}.

Definition example_node : NodeIR.NodeIR string (list string) Z :=
  NodeIR.mkNodeIR "population" ["rate_op"] (Some example_values).

Definition node_without_values : NodeIR.NodeIR string (list string) Z :=
  NodeIR.mkNodeIR "population" ["rate_op"] None.

End VectorizedNodeIR.

(** ** The graph builder's shape guard *)

Module GraphBuilder.

Inductive build_error : Type := ShapeMismatchError.

(** Modelled from the spec: the graph builder ([NumpyBackend.add_op] in
    [numpy_backend.py]) runs the backend's shape-compatibility check on the
    two operands before it constructs a binary operation node; an
    incompatible pair raises [ShapeMismatchError]. *)
Definition check_operand_shapes (op1 op2 : pyobj) : build_error + unit :=
  if FortranBackend._compare_shapes op1 op2 false then inr tt
  else inl ShapeMismatchError.

End GraphBuilder.

(** ** The expression and equation layer ([pyrates.parser]) *)

Module Parser.

(** *** Expressions *)

Inductive binop : Type := Add | Sub | Mul | Div.

(** Modelled from the spec: the parse tree of §3 ([ParseNode]), restricted
    to the scalar arithmetic part of the expression language: literals,
    variable references, unary negation and the binary operators [+ - * /].
    The parser module is missing from the sources. *)
Inductive expr : Type :=
| Num (q : Q)
| Var (x : string)
| Neg (e : expr)
| Bin (op : binop) (e1 e2 : expr).

(** Modelled from the spec: [evaluate] of §4.6 and §8, the value of a parse
    tree under the bindings of the symbol table. Numbers are exact
    rationals. A variable without binding is an [UndefinedVariableError]
    (§4.2); a division by zero has no value. *)
Fixpoint evaluate (vars : gmap string Q) (e : expr) : exn + Q :=
  match e with
  | Num q => inr q
  | Var x =>
      match vars !! x with
      | Some v => inr v
      | None => inl (UndefinedVariableError x)
      end
  | Neg e1 =>
      match evaluate vars e1 with
      | inl err => inl err
      | inr v => inr (- v)%Q
      end
  | Bin op e1 e2 =>
      match evaluate vars e1 with
      | inl err => inl err
      | inr v1 =>
          match evaluate vars e2 with
          | inl err => inl err
          | inr v2 =>
              match op with
              | Add => inr (v1 + v2)%Q
              | Sub => inr (v1 - v2)%Q
              | Mul => inr (v1 * v2)%Q
              | Div => if Qeq_bool v2 0 then inl ZeroDivisionError
                       else inr (v1 / v2)%Q
              end
          end
      end
  end.

(** *** Tokens *)

Inductive token : Type :=
| TNum (q : Q)
| TIdent (x : string)
| TSym (c : ascii).

Definition is_digit (c : ascii) : bool :=
  (48 <=? nat_of_ascii c) && (nat_of_ascii c <=? 57).

Definition is_ident_start (c : ascii) : bool :=
  let k := nat_of_ascii c in
  ((65 <=? k) && (k <=? 90)) || ((97 <=? k) && (k <=? 122)) || (k =? 95).

Definition is_ident_char (c : ascii) : bool := is_ident_start c || is_digit c.

Definition is_space (c : ascii) : bool := nat_of_ascii c =? 32.

Definition is_symbol (c : ascii) : bool :=
  match find (fun k => k =? nat_of_ascii c) [40; 41; 42; 43; 45; 47] with
  | Some _ => true
  | None => false
  end.

(** The longest initial part of [s] whose characters satisfy [p], and the
    rest of [s]. *)
Fixpoint span (p : ascii -> bool) (s : string) : string * string :=
  match s with
  | EmptyString => (EmptyString, EmptyString)
  | String c s' =>
      if p c then let '(a, b) := span p s' in (String c a, b)
      else (EmptyString, s)
  end.

(** The number written by a string of decimal digits. *)
Fixpoint digits_value (s : string) (acc : Z) : Z :=
  match s with
  | EmptyString => acc
  | String c s' => digits_value s' (10 * acc + Z.of_nat (nat_of_ascii c - 48))%Z
  end.

(** The value of a decimal literal with integer digits [ds] and fraction
    digits [fs]. *)
Fixpoint pow10 (k : nat) : positive :=
  match k with
  | 0 => 1%positive
  | S k' => (10 * pow10 k')%positive
  end.

Definition decimal (ds fs : string) : Q :=
  Qmake (digits_value (ds ++ fs) 0) (pow10 (String.length fs)).

(** Modelled from the spec: the tokenizer of §4.1 and §6 for decimal
    numbers, identifiers [[A-Za-z_][A-Za-z0-9_]*], the operators [+ - * /]
    and parentheses; any other character is a [SyntaxError]. *)
Fixpoint tokenize (fuel : nat) (s : string) : exn + list token :=
  match fuel with
  | 0 => inl (SyntaxError "input too long")
  | S fuel' =>
      match s with
      | EmptyString => inr []
      | String c s' =>
          if is_space c then tokenize fuel' s'
          else if is_digit c then
            let '(ds, r) := span is_digit s in
            let '(fs, r') :=
              match r with
              | String "."%char r1 => span is_digit r1
              | _ => (EmptyString, r)
              end in
            match tokenize fuel' r' with
            | inl e => inl e
            | inr ts => inr (TNum (decimal ds fs) :: ts)
            end
          else if is_ident_start c then
            let '(x, r) := span is_ident_char s in
            match tokenize fuel' r with
            | inl e => inl e
            | inr ts => inr (TIdent x :: ts)
            end
          else if is_symbol c then
            match tokenize fuel' s' with
            | inl e => inl e
            | inr ts => inr (TSym c :: ts)
            end
          else inl (SyntaxError "unknown token")
      end
  end.

(** *** The expression parser *)

(** Modelled from the spec: the precedence grammar of §4.1 for the
    arithmetic part: additive operators bind less than multiplicative ones,
    these less than unary negation, and this less than parentheses; binary
    operators associate to the left. Malformed input is a [SyntaxError]. *)
Fixpoint parse_sum (fuel : nat) (ts : list token) : exn + (expr * list token) :=
  match fuel with
  | 0 => inl (SyntaxError "expression too deep")
  | S fuel' =>
      match parse_product fuel' ts with
      | inl e => inl e
      | inr (lhs, ts') => sum_tail fuel' lhs ts'
      end
  end
with sum_tail (fuel : nat) (lhs : expr) (ts : list token) : exn + (expr * list token) :=
  match fuel with
  | 0 => inl (SyntaxError "expression too deep")
  | S fuel' =>
      match ts with
      | TSym "+"%char :: ts' =>
          match parse_product fuel' ts' with
          | inl e => inl e
          | inr (r, ts'') => sum_tail fuel' (Bin Add lhs r) ts''
          end
      | TSym "-"%char :: ts' =>
          match parse_product fuel' ts' with
          | inl e => inl e
          | inr (r, ts'') => sum_tail fuel' (Bin Sub lhs r) ts''
          end
      | _ => inr (lhs, ts)
      end
  end
with parse_product (fuel : nat) (ts : list token) : exn + (expr * list token) :=
  match fuel with
  | 0 => inl (SyntaxError "expression too deep")
  | S fuel' =>
      match parse_unary fuel' ts with
      | inl e => inl e
      | inr (lhs, ts') => product_tail fuel' lhs ts'
      end
  end
with product_tail (fuel : nat) (lhs : expr) (ts : list token) : exn + (expr * list token) :=
  match fuel with
  | 0 => inl (SyntaxError "expression too deep")
  | S fuel' =>
      match ts with
      | TSym "*"%char :: ts' =>
          match parse_unary fuel' ts' with
          | inl e => inl e
          | inr (r, ts'') => product_tail fuel' (Bin Mul lhs r) ts''
          end
      | TSym "/"%char :: ts' =>
          match parse_unary fuel' ts' with
          | inl e => inl e
          | inr (r, ts'') => product_tail fuel' (Bin Div lhs r) ts''
          end
      | _ => inr (lhs, ts)
      end
  end
with parse_unary (fuel : nat) (ts : list token) : exn + (expr * list token) :=
  match fuel with
  | 0 => inl (SyntaxError "expression too deep")
  | S fuel' =>
      match ts with
      | TSym "-"%char :: ts' =>
          match parse_unary fuel' ts' with
          | inl e => inl e
          | inr (e1, ts'') => inr (Neg e1, ts'')
          end
      | TNum q :: ts' => inr (Num q, ts')
      | TIdent x :: ts' => inr (Var x, ts')
      | TSym "("%char :: ts' =>
          match parse_sum fuel' ts' with
          | inl e => inl e
          | inr (e1, TSym ")"%char :: ts'') => inr (e1, ts'')
          | inr _ => inl (SyntaxError "unbalanced brackets")
          end
      | _ => inl (SyntaxError "operand expected")
      end
  end.

(** Modelled from the spec: [parse] of §4.1 on an expression text. *)
Definition parse_expr (text : string) : exn + expr :=
  match tokenize (S (String.length text)) text with
  | inl e => inl e
  | inr ts =>
      match parse_sum (4 * length ts + 8) ts with
      | inl e => inl e
      | inr (e, []) => inr e
      | inr (_, _ :: _) => inl (SyntaxError "trailing tokens")
      end
  end.

(** *** Equations *)

Inductive eq_mode : Type := assign | differential.

(** Modelled from the spec: an [Equation] of §3 pairs a target variable
    with a right-hand side and a mode flag. *)
Record Equation : Type := mkEquation {
  target : string;
  rhs : expr;
  mode : eq_mode
}.

(** Modelled from the spec: the per-step update rule of §4.6. In [assign]
    mode the target is replaced by the value of the right-hand side; in
    [differential] mode by [target + evaluate(rhs) * dt]. The update either
    raises, leaving the variables as they are, or yields the variables
    after the update. *)
Definition update (eq : Equation) (dt : Q) (vars : gmap string Q)
  : exn + gmap string Q :=
  match evaluate vars (rhs eq) with
  | inl e => inl e
  | inr r =>
      match mode eq with
      | assign => inr (<[target eq := r]> vars)
      | differential =>
          match vars !! target eq with
          | None => inl (UndefinedVariableError (target eq))
          | Some v => inr (<[target eq := (v + r * dt)%Q]> vars)
          end
      end
  end.

(** Modelled from the spec: [evaluate_step(equation_set, dt)] of §6 applies
    the update of every equation, in order. *)
Fixpoint evaluate_step (eqs : list Equation) (dt : Q) (vars : gmap string Q)
  : exn + gmap string Q :=
  match eqs with
  | [] => inr vars
  | eq :: eqs' =>
      match update eq dt vars with
      | inl e => inl e
      | inr vars' => evaluate_step eqs' dt vars'
      end
  end.

(** Modelled from the spec: the top-level [=] at which §4.6 splits an
    equation text is the first [=] that is not part of one of the
    comparison operators of §4.1. *)
Fixpoint find_assign (prev : ascii) (s : string) (i : nat) : option nat :=
  match s with
  | EmptyString => None
  | String c s' =>
      let prev_cmp :=
        match find (fun k => k =? nat_of_ascii prev) [33; 60; 61; 62] with
        | Some _ => true
        | None => false
        end in
      let next_eq :=
        match s' with
        | String "="%char _ => true
        | _ => false
        end in
      if (nat_of_ascii c =? 61) && negb prev_cmp && negb next_eq then Some i
      else find_assign c s' (S i)
  end.

(** Modelled from the spec: [resolve] of §4.2 for the identifiers of an
    expression: an identifier without binding that is not the target of the
    equation is an [UndefinedVariableError]. *)
Fixpoint resolve_all (bindings : gmap string Q) (tgt : string) (e : expr)
  : exn + unit :=
  match e with
  | Num _ => inr tt
  | Var x =>
      if bool_decide (x = tgt) then inr tt
      else match bindings !! x with
           | Some _ => inr tt
           | None => inl (UndefinedVariableError x)
           end
  | Neg e1 => resolve_all bindings tgt e1
  | Bin _ e1 e2 =>
      match resolve_all bindings tgt e1 with
      | inl err => inl err
      | inr _ => resolve_all bindings tgt e2
      end
  end.

(** Modelled from the spec: [compile_equation] of §4.6. The text is split
    at the top-level [=]; a left side of the form [d/dt * <identifier>]
    makes a [differential] equation, for which a step size [dt] must be
    present in the context, else [ValueError]; a left side that is an
    identifier makes an [assign] equation. *)
Definition compile_equation (text : string) (bindings : gmap string Q)
  : exn + Equation :=
  match find_assign " "%char text 0 with
  | None => inl (SyntaxError "no assignment")
  | Some i =>
      let lhs := PyStr.str_take i text in
      let rhs_text := PyStr.str_drop (S i) text in
      match tokenize (S (String.length lhs)) lhs with
      | inl e => inl e
      | inr lhs_tokens =>
          match
            match lhs_tokens with
            | [TIdent "d"; TSym "/"%char; TIdent "dt"; TSym "*"%char; TIdent x] =>
                match bindings !! "dt" with
                | Some _ => inr (x, differential)
                | None => inl ValueError
                end
            | [TIdent x] => inr (x, assign)
            | _ => inl (SyntaxError "invalid left-hand side")
            end
          with
          | inl e => inl e
          | inr (x, m) =>
              match parse_expr rhs_text with
              | inl e => inl e
              | inr e =>
                  match resolve_all bindings x e with
                  | inl err => inl err
                  | inr _ => inr {| target := x; rhs := e; mode := m |}
                  end
              end
          end
      end
  end.

(** Modelled from the spec: the scenario of §8, which compiles an equation
    and performs one evaluation step with the step size found in the
    bindings (an [assign] equation does not use the step size, which is
    taken as 1 when there is none). *)
Definition compile_and_step (text : string) (bindings : gmap string Q)
  : exn + gmap string Q :=
  match compile_equation text bindings with
  | inl e => inl e
  | inr eq => evaluate_step [eq] (default 1%Q (bindings !! "dt")) bindings
  end.

(** The bindings of the example: [a] is 0 and the step size [dt] is 0.1. *)
Definition example_bindings : gmap string Q :=
  {[ "a" := 0%Q; "dt" := (1 # 10)%Q ]}.

Definition example_equation : Equation :=
  {| target := "a"; rhs := Bin Add (Num 5) (Num 2); mode := differential |}.

(** *** Index arguments *)

(** The pieces of [s] between the occurrences of [sep] outside brackets;
    [depth] counts the open brackets and [cur] holds the current piece. *)
Fixpoint split_top (sep : ascii) (s : string) (depth : nat) (cur : string)
  : list string :=
  match s with
  | EmptyString => [cur]
  | String c s' =>
      let k := nat_of_ascii c in
      if (depth =? 0) && (k =? nat_of_ascii sep) then
        cur :: split_top sep s' depth EmptyString
      else
        let depth' :=
          if (k =? 40) || (k =? 91) then S depth
          else if (k =? 41) || (k =? 93) then pred depth
          else depth in
        split_top sep s' depth' (cur ++ String c EmptyString)
  end.

(** The number of occurrences of [sep] in [s] outside brackets. *)
Fixpoint count_top (sep : ascii) (s : string) (depth : nat) : nat :=
  match s with
  | EmptyString => 0
  | String c s' =>
      let k := nat_of_ascii c in
      if (depth =? 0) && (k =? nat_of_ascii sep) then S (count_top sep s' depth)
      else
        let depth' :=
          if (k =? 40) || (k =? 91) then S depth
          else if (k =? 41) || (k =? 93) then pred depth
          else depth in
        count_top sep s' depth'
  end.

(** The colons of a slice argument. *)
Definition colon_count (arg : string) : nat := count_top ":"%char arg 0.

(** One argument of an indexing operation: a single index, the full slice
    [:], or a slice with [start], [stop] and possibly [step], each of them
    the text of a sub-expression (empty when left out). *)
Inductive index_arg : Type :=
| Single (e : string)
| FullSlice
| Slice (start stop step : string).

Definition slicing_arity_msg : string := "too many arguments for slicing".

(** Modelled from the spec: the slice syntax of §4.1: an index argument
    without colon is a single index, one with one or two colons is a
    [start:stop] or [start:stop:step] slice, and one with more than two
    colons is a [SyntaxError]. *)
Definition parse_index_arg (arg : string) : exn + index_arg :=
  match split_top ":"%char arg 0 EmptyString with
  | [e] => inr (Single e)
  | [a; b] =>
      if bool_decide (a = EmptyString) && bool_decide (b = EmptyString)
      then inr FullSlice else inr (Slice a b EmptyString)
  | [a; b; c] => inr (Slice a b c)
  | _ => inl (SyntaxError slicing_arity_msg)
  end.

Fixpoint parse_index_args (args : list string) : exn + list index_arg :=
  match args with
  | [] => inr []
  | arg :: args' =>
      match parse_index_arg arg with
      | inl e => inl e
      | inr a =>
          match parse_index_args args' with
          | inl e => inl e
          | inr l => inr (a :: l)
          end
      end
  end.

(** Modelled from the spec: the indexing operation of §4.1 on a variable,
    [var[args]]: the text between the brackets is split at its top-level
    commas, and every piece is parsed as an index argument. *)
Definition parse_indexing (var args_text : string) : exn + (string * list index_arg) :=
  match parse_index_args (split_top ","%char args_text 0 EmptyString) with
  | inl e => inl e
  | inr l => inr (var, l)
  end.

(** Modelled from the spec: an indexing expression of §4.1 as text, a
    variable followed by index arguments in square brackets. *)
Definition parse_index_expr (text : string) : exn + (string * list index_arg) :=
  match PyStr.find "[" text with
  | None => inl (SyntaxError "no index")
  | Some i =>
      let len := String.length text in
      if bool_decide (PyStr.slice text (len - 1) len = "]")
      then parse_indexing (PyStr.str_take i text) (PyStr.slice text (S i) (len - 1))
      else inl (SyntaxError "unbalanced brackets")
  end.

End Parser.

(** ** Further data for the line wrapping *)

(** No operator is first found beyond the start of the window. *)
Definition operators_at_start_only (window : string) : Prop :=
  forall op i, op ∈ FortranGen.wrap_ops -> PyStr.find op window = Some i -> i = 0.


(** An equation of 134 characters. *)
Definition very_long_equation : string :=
  "y_delta(2) = (eta_exc + coupling_exc*rate_exc*time_constant_exc - coupling_inh*rate_inh + membrane_potential_exc**2)/time_constant_exc".

(** ** The code emission of [FortranBackend.compile] *)

Module FortranCompile.
Import FortranGen.

(** Computations that may raise, or not come to an end within the bound
    given to [add_code_line]. *)
Definition M (A : Type) : Type := option (exn + A).

Definition ret {A : Type} (a : A) : M A := Some (inr a).

Definition raise {A : Type} (e : exn) : M A := Some (inl e).

Definition bind {A B : Type} (m : M A) (k : A -> M B) : M B :=
  match m with
  | None => None
  | Some (inl e) => Some (inl e)
  | Some (inr a) => k a
  end.

(** What [compile] reads of a backend variable: [var.short_name],
    [str(var.dtype)] and the text of [var.value]. *)
Record var : Type := mkVar {
  var_short_name : string;
  var_dtype : string;
  var_value : string
}.

(** [s[:-1]] *)
Definition drop_last_char (s : string) : string :=
  PyStr.str_take (String.length s - 1) s.

(** [s.split(sep)[0]]: the text before the first occurrence of [sep], the
    whole text when there is none. *)
Definition before_first (sep s : string) : string :=
  match PyStr.find sep s with
  | Some i => PyStr.str_take i s
  | None => s
  end.

(** [s.replace(" ", "")] *)
Fixpoint remove_blanks (s : string) : string :=
  match s with
  | EmptyString => EmptyString
  | String c s' =>
      if Ascii.eqb c " "%char then remove_blanks s' else String c (remove_blanks s')
  end.

Section Emission.

(** [self.get_var], a method of the base class ([numpy_backend.py]). *)
Variable get_var : string -> exn + var.

(** The bound on the rounds of the wrapping loop, for every line. *)
Variable fuel : nat.

(** The loop [for key in var_map: var = self.get_var(key); if ...:
    func_gen.add_code_line(f"{var.short_name},")] of a type declaration,
    [selected] being the condition. *)
Fixpoint add_names (selected : var -> bool) (keys : list string) (gen : CodeGen)
  : M CodeGen :=
  match keys with
  | [] => ret gen
  | key :: keys' =>
      match get_var key with
      | inl e => raise e
      | inr v =>
          if selected v
          then bind (add_code_line fuel gen (var_short_name v ++ ","))
                    (add_names selected keys')
          else add_names selected keys' gen
      end
  end.

(** [if "," in func_gen.code[-1]: func_gen.code[-1] = func_gen.code[-1][:-1]
     else: func_gen.code.pop(-1)] *)
Definition strip_last_comma (gen : CodeGen) : M CodeGen :=
  match last (code gen) with
  | None => raise IndexError
  | Some piece =>
      if PyStr.contains "," piece
      then ret {| code := removelast (code gen) ++ [drop_last_char piece];
                  lvl := lvl gen |}
      else ret {| code := removelast (code gen); lvl := lvl gen |}
  end.

(** One declaration of the block "declare variable types": the keyword,
    the names of the selected variables, the removal of the last comma (or
    of the keyword), and a line break. *)
Definition declare_types (keyword : string) (selected : var -> bool)
    (keys : list string) (gen : CodeGen) : M CodeGen :=
  bind (add_code_line fuel gen keyword) (fun gen1 =>
  bind (add_names selected keys gen1) (fun gen2 =>
  bind (strip_last_comma gen2) (fun gen3 =>
  ret (add_linebreak gen3)))).

(** The conditions of the two declarations. *)
Definition is_float_var (v : var) : bool :=
  PyStr.contains "float" (var_dtype v)
  && negb (bool_decide (var_short_name v = "y_delta")).

Definition is_int_var (v : var) : bool := PyStr.contains "int" (var_dtype v).

(** The block "declare variable types". *)
Definition declare_variable_types (keys : list string) (gen : CodeGen) : M CodeGen :=
  bind (declare_types "double precision " is_float_var keys gen)
       (declare_types "integer " is_int_var keys).

(** The state of the loop of the block "declare constants": the generator,
    the list [args], and the lists [updates] and [indices] with the
    counter [i]. *)
Record constants_state : Type := mkConstants {
  cs_gen : CodeGen;
  cs_args : list (option var);
  cs_updates : list string;
  cs_indices : list nat;
  cs_i : nat
}.

(** The loop [for key, (vtype, idx) in var_map.items(): ...] of the block
    "declare constants"; [params] holds the variables [params[k][1]]. *)
Fixpoint declare_constants_loop (params : list var)
    (var_map : list (string * (string * nat))) (st : constants_state)
  : M constants_state :=
  match var_map with
  | [] => ret st
  | (key, (vtype, idx)) :: var_map' =>
      if bool_decide (vtype = "constant") then
        match params !! idx with
        | None => raise IndexError
        | Some v =>
            if bool_decide (var_short_name v = "y_delta")
            then declare_constants_loop params var_map' st
            else
              bind (add_code_line fuel (cs_gen st)
                      (var_short_name v ++ " = args(" ++ pretty (idx + 1) ++ ")"))
                   (fun gen1 =>
                      declare_constants_loop params var_map'
                        {| cs_gen := add_linebreak gen1;
                           cs_args := <[idx := Some v]> (cs_args st);
                           cs_updates := cs_updates st ++ [var_short_name v];
                           cs_indices := cs_indices st ++ [cs_i st];
                           cs_i := cs_i st + 1 |})
        end
      else declare_constants_loop params var_map' st
  end.

(** The block "declare constants". *)
Definition declare_constants (params : list var)
    (var_map : list (string * (string * nat))) (gen : CodeGen) : M constants_state :=
  bind (add_code_line fuel gen "! declare constants") (fun gen1 =>
  bind (declare_constants_loop params var_map
          {| cs_gen := add_linebreak gen1;
             cs_args := replicate (length params) None;
             cs_updates := []; cs_indices := []; cs_i := 0 |})
       (fun st => ret {| cs_gen := add_linebreak (cs_gen st);
                         cs_args := cs_args st;
                         cs_updates := cs_updates st;
                         cs_indices := cs_indices st;
                         cs_i := cs_i st |})).

(** [find_arg = [arg == lhs for arg in updates]; if any(find_arg):
     idx = find_arg.index(True)] *)
Fixpoint find_arg_index (lhs : string) (updates : list string) : option nat :=
  match updates with
  | [] => None
  | arg :: updates' =>
      if bool_decide (arg = lhs) then Some 0 else S <$> find_arg_index lhs updates'
  end.

(** The left-hand side of the statement of an operation. *)
Definition lhs_of (value : string) : string :=
  remove_blanks (before_first "=" value).

(** The body of the loops of the block "add equations", for one operation
    with the statement [value]. *)
Definition add_equation (updates : list string) (indices : list nat)
    (value : string) (st : CodeGen * list (string * nat))
  : M (CodeGen * list (string * nat)) :=
  let '(gen, arg_updates) := st in
  match
    match find_arg_index (lhs_of value) updates with
    | Some idx =>
        match updates !! idx, indices !! idx with
        | Some upd, Some k => inr (arg_updates ++ [(upd, k)])%list
        | _, _ => inl IndexError
        end
    | None => inr arg_updates
    end
  with
  | inl e => raise e
  | inr arg_updates' =>
      bind (add_code_line fuel gen value)
           (fun gen1 => ret (add_linebreak gen1, arg_updates'))
  end.

Fixpoint add_equations_loop (updates : list string) (indices : list nat)
    (values : list string) (st : CodeGen * list (string * nat))
  : M (CodeGen * list (string * nat)) :=
  match values with
  | [] => ret st
  | value :: values' =>
      bind (add_equation updates indices value st)
           (add_equations_loop updates indices values')
  end.

(** The block "add equations"; [layers] holds the statements [op.value] of
    the operations of every layer. *)
Definition add_equations (updates : list string) (indices : list nat)
    (layers : list (list string)) (gen : CodeGen)
  : M (CodeGen * list (string * nat)) :=
  bind (add_code_line fuel gen
          "! calculate right-hand side update of equation system") (fun gen1 =>
  bind (add_equations_loop updates indices (concat layers) (add_linebreak gen1, []))
       (fun st => ret (add_linebreak st.1, st.2))).

(** [f"args{self.idx_l}{idx}{self.idx_r} = {upd}"] *)
Definition update_str (upd : string) (idx : nat) : string :=
  "args" ++ FortranBackend.idx_l ++ pretty idx ++ FortranBackend.idx_r
  ++ " = " ++ upd.

(** The loop of the block "update parameters where necessary". *)
Fixpoint update_parameters_loop (arg_updates : list (string * nat)) (gen : CodeGen)
  : M CodeGen :=
  match arg_updates with
  | [] => ret gen
  | (upd, idx) :: arg_updates' =>
      if bool_decide (("    " ++ update_str upd idx) ∈ code gen)
      then update_parameters_loop arg_updates' gen
      else bind (add_code_line fuel gen (update_str upd idx))
                (fun gen1 => update_parameters_loop arg_updates' (add_linebreak gen1))
  end.

(** The block "update parameters where necessary". *)
Definition update_parameters (arg_updates : list (string * nat)) (gen : CodeGen)
  : M CodeGen :=
  bind (add_code_line fuel gen "! update system parameters") (fun gen1 =>
  update_parameters_loop arg_updates (add_linebreak gen1)).

End Emission.

(** The names that the block "declare constants" declares, each with the
    index from which it is read: [idx + 1] for the entry [idx] of
    [var_map]. *)
Fixpoint declared_constants (params : list var)
    (var_map : list (string * (string * nat))) : list (string * nat) :=
  match var_map with
  | [] => []
  | (key, (vtype, idx)) :: var_map' =>
      match params !! idx with
      | Some v =>
          if bool_decide (vtype = "constant")
             && negb (bool_decide (var_short_name v = "y_delta"))
          then (var_short_name v, idx + 1) :: declared_constants params var_map'
          else declared_constants params var_map'
      | None => declared_constants params var_map'
      end
  end.

End FortranCompile.

(** ** Further data for the code emission *)

(** The entry that the block "add equations" appends to [arg_updates] for
    a statement whose left-hand side is one of the names in [updates]: the
    name, and its first position in [updates]. *)
Definition write_back (updates : list string) (value : string)
  : option (string * nat) :=
  match FortranCompile.find_arg_index (FortranCompile.lhs_of value) updates with
  | Some k => Some (FortranCompile.lhs_of value, k)
  | None => None
  end.

(** Two parameters and the variable map of a rate equation, and the
    statements of its operations. *)
Definition example_params : list FortranCompile.var :=
  [ FortranCompile.mkVar "tau" "float32" "0.01";
    FortranCompile.mkVar "k" "float32" "2.0" ].

Definition example_var_map : list (string * (string * nat)) :=
  [ ("pop/op/tau", ("constant", 0));
    ("pop/op/r", ("state_var", 0));
    ("pop/op/k", ("constant", 1)) ].

Definition example_layers : list (list string) :=
  [ ["tau = tau + k"]; ["y_delta(1) = (k - r)/tau"] ].

(** The names that a type declaration lists: the short names of the
    variables that are selected, in the order of the keys. *)
Definition selected_names (get_var : string -> exn + FortranCompile.var)
    (selected : FortranCompile.var -> bool) (keys : list string) : list string :=
  omap (fun key =>
          match get_var key with
          | inr v => if selected v then Some (FortranCompile.var_short_name v) else None
          | inl _ => None
          end) keys.

(** Names, each but the last followed by a comma. *)
Fixpoint comma_separated (names : list string) : list string :=
  match names with
  | [] => []
  | [name] => [name]
  | name :: names' => (name ++ ",") :: comma_separated names'
  end.

(** The pieces of a type declaration: nothing when no name is listed, else
    the keyword line and the names. *)
Definition declaration_pieces (keyword_line : string) (names : list string)
  : list string :=
  match names with
  | [] => []
  | _ :: _ => keyword_line :: comma_separated names
  end.

(** The variables of the example, by key. *)
Definition example_get_var (key : string) : exn + FortranCompile.var :=
  if bool_decide (key = "pop/op/tau") then inr (FortranCompile.mkVar "tau" "float32" "0.01")
  else if bool_decide (key = "pop/op/k") then inr (FortranCompile.mkVar "k" "float32" "2.0")
  else if bool_decide (key = "pop/op/r") then inr (FortranCompile.mkVar "r" "float32" "y(1)")
  else if bool_decide (key = "pop/op/n") then inr (FortranCompile.mkVar "n" "int32" "3")
  else inl (KeyError key).

(** The state after the block "declare constants" of the example, and the
    outcome of its block "add equations". *)
Definition example_constants_state : FortranCompile.constants_state :=
  Eval vm_compute in
  match FortranCompile.declare_constants 2 example_params example_var_map
          FortranGen.indented_gen with
  | Some (inr st) => st
  | _ => FortranCompile.mkConstants FortranGen.new_gen [] [] [] 0
  end.

Definition example_equations_outcome : FortranGen.CodeGen * list (string * nat) :=
  Eval vm_compute in
  match FortranCompile.add_equations 2
          (FortranCompile.cs_updates example_constants_state)
          (FortranCompile.cs_indices example_constants_state)
          example_layers (FortranCompile.cs_gen example_constants_state) with
  | Some (inr out) => out
  | _ => (FortranGen.new_gen, [])
  end.

(** The keys of the example, in the order of the variable map. *)
Definition example_keys : list string :=
  ["pop/op/tau"; "pop/op/r"; "pop/op/k"; "pop/op/n"].

(** The loop of the block "update parameters where necessary" without its
    test: every entry of [arg_updates] gets its statement and a line
    break. *)
Fixpoint write_back_all (fuel : nat) (arg_updates : list (string * nat))
    (gen : FortranGen.CodeGen) : FortranCompile.M FortranGen.CodeGen :=
  match arg_updates with
  | [] => FortranCompile.ret gen
  | (upd, idx) :: arg_updates' =>
      FortranCompile.bind
        (FortranGen.add_code_line fuel gen (FortranCompile.update_str upd idx))
        (fun gen1 => write_back_all fuel arg_updates' (FortranGen.add_linebreak gen1))
  end.

(** [f"{var.short_name} = args({idx+1})"], for the name and the index that
    the constant is read from. *)
Definition read_str (name : string) (read_idx : nat) : string :=
  name ++ " = args(" ++ pretty read_idx ++ ")".

(** One statement [read_str] and a line break for every declared
    constant. *)
Fixpoint read_all (fuel : nat) (declared : list (string * nat))
    (gen : FortranGen.CodeGen) : FortranCompile.M FortranGen.CodeGen :=
  match declared with
  | [] => FortranCompile.ret gen
  | (name, read_idx) :: declared' =>
      FortranCompile.bind
        (FortranGen.add_code_line fuel gen (read_str name read_idx))
        (fun gen1 => read_all fuel declared' (FortranGen.add_linebreak gen1))
  end.

(** A piece of code that does not begin with four blanks and [args]. *)
Definition no_write_back_text (piece : string) : Prop :=
  String.prefix "    args" piece = false.

(** ** Further data for [_create_op] *)

(** The class of an operation node and the arguments of its constructor
    call. *)
Inductive node_class : Type := AssignOp | IndexOp | PlainOp.

Definition class_of (node : FortranBackend.op_node) : node_class :=
  match node with
  | FortranBackend.FortranAssignOp _ _ _ _ _ _ => AssignOp
  | FortranBackend.FortranIndexOp _ _ _ _ _ _ => IndexOp
  | FortranBackend.FortranOp _ _ _ _ => PlainOp
  end.

Definition call_of (node : FortranBackend.op_node) : string :=
  match node with
  | FortranBackend.FortranAssignOp c _ _ _ _ _
  | FortranBackend.FortranIndexOp c _ _ _ _ _
  | FortranBackend.FortranOp c _ _ _ => c
  end.

Definition name_of (node : FortranBackend.op_node) : string :=
  match node with
  | FortranBackend.FortranAssignOp _ nm _ _ _ _
  | FortranBackend.FortranIndexOp _ nm _ _ _ _
  | FortranBackend.FortranOp _ nm _ _ => nm
  end.

Definition node_name_of (node : FortranBackend.op_node) : string :=
  match node with
  | FortranBackend.FortranAssignOp _ _ nn _ _ _
  | FortranBackend.FortranIndexOp _ _ nn _ _ _
  | FortranBackend.FortranOp _ _ nn _ => nn
  end.

Definition args_of (node : FortranBackend.op_node) : list pyobj :=
  match node with
  | FortranBackend.FortranAssignOp _ _ _ a _ _
  | FortranBackend.FortranIndexOp _ _ _ a _ _
  | FortranBackend.FortranOp _ _ _ a => a
  end.

(** The class that [_create_op] chooses for an operator: by its text for
    the assignments, and by the identity test for [index]. *)
Definition class_for (op : string) (interned : bool) : node_class :=
  if bool_decide (op ∈ FortranBackend.assign_symbols) then AssignOp
  else if FortranBackend.is_literal op interned "index" then IndexOp
  else PlainOp.

(** A shaped operand that is compatible in one position only: its shape
    sums to more than 0. *)
Definition shape_sum_positive (op : pyobj) : Prop :=
  exists sh, shape op = Some sh /\ 0 < sum_list sh.

(** ** [pyrates/frontend/fileio/yaml.py] *)

Module Yaml.

Inductive yaml_exn : Type :=
| FileNotFoundError (msg : string)
| AttributeError (msg : string)
| OtherError (msg : string).

Section ToDict.

(** The contents of a file, and the values of a YAML document, with the
    value of a Python [str]. *)
Context {Content Y : Type}.
Variable str_value : string -> Y.

(** [pyrates.frontend.file.parse_path], which yields
    [(template_name, filename, directory)]; [os.path.join]; the file system
    ([os.path.exists] and [open]: the content of a file, if there is one);
    and the YAML loader. *)
Variable parse_path : string -> yaml_exn + (string * string * string).
Variable path_join : string -> string -> string.
Variable fs : string -> option Content.
Variable load : Content -> yaml_exn + gmap string (gmap string Y).

(** The loop [for ext in [...]: ...; if os.path.exists(filepath): break]
    with its [else] branch. *)
Fixpoint probe (directory filename : string) (exts : list string)
  : yaml_exn + string :=
  match exts with
  | [] =>
      inl (FileNotFoundError
             ("Could not identify file with name " ++ filename
              ++ " in directory " ++ directory ++ "."))
  | ext :: exts' =>
      let filepath := path_join directory (filename ++ "." ++ ext) in
      match fs filepath with
      | Some _ => inr filepath
      | None => probe directory filename exts'
      end
  end.

(** The path of the file that [to_dict] opens. *)
Definition locate (directory filename : string) : yaml_exn + string :=
  if PyStr.contains "." filename then inr (path_join directory filename)
  else probe directory filename ["yaml"; "yml"].

(** From [open(filepath)] on: load the file, take the template out of it
    and set its [path] and [name]. *)
Definition read_template (path template_name filepath : string)
  : yaml_exn + gmap string Y :=
  match fs filepath with
  | None =>
      inl (FileNotFoundError
             ("[Errno 2] No such file or directory: '" ++ filepath ++ "'"))
  | Some content =>
      match load content with
      | inl e => inl e
      | inr file_dict =>
          match file_dict !! template_name with
          | Some template_dict =>
              inr (<["name" := str_value template_name]>
                     (<["path" := str_value path]> template_dict))
          | None =>
              inl (AttributeError
                     ("Could not find " ++ template_name ++ " in " ++ filepath ++ "."))
          end
      end
  end.

Definition to_dict (path : string) : yaml_exn + gmap string Y :=
  match parse_path path with
  | inl e => inl e
  | inr (template_name, filename, directory) =>
      match locate directory filename with
      | inl e => inl e
      | inr filepath => read_template path template_name filepath
      end
  end.

End ToDict.

End Yaml.

(** ** [pyrates/utility/genetic_algorithm.py]: crossover *)

Module GeneticAlgorithm.

Section Crossover.

(** Gene values and the sigmas of the mutation. Gene values are compared
    with [==]. *)
Context {G Sg : Type} `{EqDecision G}.

(** What the crossover reads of a member of the population (a row of
    [self.pop]): the values in the gene columns, which stand in the order
    of the gene pool, and the list in the column [sigma]. *)
Record member : Type := mkMember {
  genes : list G;
  sigma : list Sg
}.

(** The random numbers: [gt_half k] tells whether the [k]-th call of
    [np.random.uniform()] gives more than 0.5. The functions below pass on
    the number of calls made so far. *)
Variable gt_half : nat -> bool.

(** The loop [for g, gene in enumerate(self.initial_gene_pool)] that draws
    the genes of a candidate; [gene_names] are the names still to do and
    [g] is the position of the first of them. *)
Fixpoint draw_genes (p0 p1 : member) (gene_names : list string) (g k : nat)
  : exn + (list G * list Sg * nat) :=
  match gene_names with
  | [] => inr ([], [], k)
  | gene :: gene_names' =>
      let parent := if gt_half k then p0 else p1 in
      match genes parent !! g with
      | None => inl (KeyError gene)
      | Some x =>
          match sigma parent !! g with
          | None => inl IndexError
          | Some s =>
              match draw_genes p0 p1 gene_names' (S g) (S k) with
              | inl e => inl e
              | inr (xs, ss, k') => inr (x :: xs, s :: ss, k')
              end
          end
      end
  end.

(** [(self.pop.drop(['fitness', 'sigma'], axis=1) == child_genes).all(1).any()] *)
Definition already_exists (pop : list member) (child_genes : list G) : bool :=
  bool_decide (child_genes ∈ map genes pop).

(** The loop [while True] for one pair of parents, from the value [count]
    on; [fuel] bounds the number of rounds, and [None] means that the bound
    was reached. *)
Fixpoint crossover_tries (fuel : nat) (pop : list member) (gene_names : list string)
    (n_tries : nat) (p0 p1 : member) (count k : nat)
  : option (exn + (list G * list Sg * nat)) :=
  match fuel with
  | 0 => None
  | S fuel' =>
      if n_tries <? count then Some (inl ValueError)
      else
        match draw_genes p0 p1 gene_names 0 k with
        | inl e => Some (inl e)
        | inr (child_genes, child_sigma, k') =>
            if already_exists pop child_genes
            then crossover_tries fuel' pop gene_names n_tries p0 p1 (count + 1) k'
            else Some (inr (child_genes, child_sigma, k'))
        end
  end.

(** [__crossover]: a child for every pair of parents. *)
Fixpoint __crossover (fuel : nat) (pop : list member) (gene_names : list string)
    (n_tries : nat) (parent_pairs : list (member * member)) (k : nat)
  : option (exn + (list (list G * list Sg) * nat)) :=
  match parent_pairs with
  | [] => Some (inr ([], k))
  | (p0, p1) :: parent_pairs' =>
      match crossover_tries fuel pop gene_names n_tries p0 p1 0 k with
      | None => None
      | Some (inl e) => Some (inl e)
      | Some (inr (child_genes, child_sigma, k')) =>
          match __crossover fuel pop gene_names n_tries parent_pairs' k' with
          | None => None
          | Some (inl e) => Some (inl e)
          | Some (inr (childs, k'')) =>
              Some (inr ((child_genes, child_sigma) :: childs, k''))
          end
      end
  end.

(** A gene and its sigma, taken from the same parent. *)
Definition gene_from (p : member) (g : nat) (x : G) (s : Sg) : Prop :=
  genes p !! g = Some x /\ sigma p !! g = Some s.

(** A child of two parents: for every gene, the value and the sigma of one
    of the parents. *)
Definition child_of (gene_names : list string) (p0 p1 : member)
    (child : list G * list Sg) : Prop :=
  length child.1 = length gene_names
  /\ length child.2 = length gene_names
  /\ forall g x s, child.1 !! g = Some x -> child.2 !! g = Some s ->
                   gene_from p0 g x s \/ gene_from p1 g x s.

End Crossover.

End GeneticAlgorithm.

(** ** Further data for [to_dict] *)

Definition example_path : string := "model_templates.jansenrit.PC".

Definition example_parse_path (path : string)
  : Yaml.yaml_exn + (string * string * string) :=
  if String.eqb path example_path
  then inr ("PC", "jansenrit", "model_templates")
  else inl (Yaml.OtherError path).

Definition example_path_join (directory filename : string) : string :=
  directory ++ "/" ++ filename.

(** A directory with [jansenrit.yml] and no [jansenrit.yaml]. *)
Definition example_fs (filepath : string) : option string :=
  if String.eqb filepath "model_templates/jansenrit.yml"
  then Some "PC: {base: OperatorTemplate, path: elsewhere}"
  else None.

Definition example_template : gmap string string :=
  <["base" := "OperatorTemplate"]> (<["path" := "elsewhere"]> ∅).

Definition example_load (content : string)
  : Yaml.yaml_exn + gmap string (gmap string string) :=
  if String.eqb content "PC: {base: OperatorTemplate, path: elsewhere}"
  then inr (<["PC" := example_template]> ∅)
  else inl (Yaml.OtherError content).

Definition example_to_dict : string -> Yaml.yaml_exn + gmap string string :=
  Yaml.to_dict (fun s => s) example_parse_path example_path_join example_fs example_load.

(** ** Further data for the crossover *)

Definition example_gene_names : list string := ["a"; "b"].

Definition example_member (a b : Z) : @GeneticAlgorithm.member Z nat :=
  GeneticAlgorithm.mkMember [a; b] [1; 1].

(** A population that is a full grid of the values 0 and 1 of two genes,
    and one that holds the two ends of it only. *)
Definition example_grid : list (@GeneticAlgorithm.member Z nat) :=
  [example_member 0 0; example_member 0 1; example_member 1 0; example_member 1 1].

Definition example_ends : list (@GeneticAlgorithm.member Z nat) :=
  [example_member 0 0; example_member 1 1].

Definition example_parents
  : list (@GeneticAlgorithm.member Z nat * @GeneticAlgorithm.member Z nat) :=
  [(example_member 0 0, example_member 1 1)].

(* ===================================================================== *)
(** * Part II: theorems                                                    *)
(* ===================================================================== *)

(** ** Shape compatibility *)

Section CompareShapes.
Import FortranBackend GraphBuilder.

Lemma compare_shapes_shaped_true op1 op2 index shape1 shape2 :
  shape op1 = Some shape1 -> shape op2 = Some shape2 ->
  _compare_shapes op1 op2 index = true <-> shapes_accepted shape1 shape2.
Proof.
  intros H1 H2. unfold _compare_shapes, shapes_accepted. rewrite H1, H2.
  case_bool_decide as Heq; [tauto|].
  destruct (Nat.ltb_spec 1 (length shape1)) as [L1|L1];
    destruct (Nat.ltb_spec 1 (length shape2)) as [L2|L2];
    destruct (Nat.eqb_spec (length shape1) 0) as [Z1|Z1];
    destruct (Nat.eqb_spec (length shape2) 0) as [Z2|Z2]; simpl;
    (split; [intros H; try discriminate H; tauto
            |intros [H|[[? ?]|[? ?]]]; try reflexivity; try contradiction; lia]).
Qed.

(** C1. When both operands carry a shape, [_compare_shapes] answers [True]
    exactly when the shapes are identical, or both have rank greater than 1
    (whatever the dimensions are), or both have rank 0; in every other case
    it answers [False], and the graph builder's guard then raises
    [ShapeMismatchError]. *)
Theorem compare_shapes_both_shaped op1 op2 index shape1 shape2 :
  shape op1 = Some shape1 -> shape op2 = Some shape2 ->
  (_compare_shapes op1 op2 index = true <-> shapes_accepted shape1 shape2)
  /\ (~ shapes_accepted shape1 shape2 -> _compare_shapes op1 op2 index = false)
  /\ (~ shapes_accepted shape1 shape2 ->
      check_operand_shapes op1 op2 = inl ShapeMismatchError).
Proof.
  intros H1 H2.
  pose proof (compare_shapes_shaped_true op1 op2 index _ _ H1 H2) as Hi.
  pose proof (compare_shapes_shaped_true op1 op2 false _ _ H1 H2) as Hf.
  split; [exact Hi|]. split; intros Hn.
  - destruct (_compare_shapes op1 op2 index); [|reflexivity].
    exfalso. apply Hn, Hi. reflexivity.
  - unfold check_operand_shapes.
    destruct (_compare_shapes op1 op2 false); [|reflexivity].
    exfalso. apply Hn, Hf. reflexivity.
Qed.

Lemma compare_shapes_both_shaped_witness :
  _compare_shapes (array_of_shape [3; 3]) (array_of_shape [4; 4]) false = true
  /\ check_operand_shapes (array_of_shape [3]) (array_of_shape [4])
     = inl ShapeMismatchError.
Proof.
  split.
  - apply (compare_shapes_both_shaped (array_of_shape [3; 3]) (array_of_shape [4; 4])
             false [3; 3] [4; 4] eq_refl eq_refl).
    right; left. simpl. split; apply Nat.lt_succ_diag_r.
  - apply (compare_shapes_both_shaped (array_of_shape [3]) (array_of_shape [4])
             false [3] [4] eq_refl eq_refl).
    intros [H|[[H _]|[H _]]]; [discriminate H | | discriminate H].
    simpl in H. apply Nat.lt_irrefl in H. exact H.
Defined.

(** C9. When only [op1] carries a shape, the answer is [True] exactly when
    the entries of that shape sum to 0, so a one-element array of shape
    [(1,)] is incompatible with a shapeless scalar; when [op1] carries no
    shape the answer is [True] whatever [op2] is. *)
Theorem compare_shapes_one_unshaped :
  (forall op1 op2 index shape1,
      shape op1 = Some shape1 -> shape op2 = None ->
      (_compare_shapes op1 op2 index = true <-> sum_list shape1 = 0))
  /\ _compare_shapes (array_of_shape [1]) shapeless_scalar false = false
  /\ (forall op1 op2 index,
        shape op1 = None -> _compare_shapes op1 op2 index = true).
Proof.
  split; [|split].
  - intros op1 op2 index shape1 H1 H2. unfold _compare_shapes. rewrite H1, H2.
    destruct (0 <? sum_list shape1) eqn:E.
    + apply Nat.ltb_lt in E. split; [discriminate | lia].
    + apply Nat.ltb_ge in E. split; [lia | reflexivity].
  - reflexivity.
  - intros op1 op2 index H1. unfold _compare_shapes. rewrite H1. reflexivity.
Qed.

Lemma compare_shapes_one_unshaped_witness :
  _compare_shapes (array_of_shape [0; 0]) shapeless_scalar true = true
  /\ _compare_shapes shapeless_scalar (array_of_shape [2; 5]) false = true.
Proof.
  destruct compare_shapes_one_unshaped as (Hshaped & _ & Hnone).
  split.
  - apply (Hshaped (array_of_shape [0; 0]) shapeless_scalar true [0; 0] eq_refl eq_refl).
    reflexivity.
  - apply (Hnone shapeless_scalar (array_of_shape [2; 5]) false eq_refl).
Defined.

End CompareShapes.

(** ** The operator table *)

Section OperatorTable.
Import FortranBackend.

Lemma ops_f_items_keys_NoDup : NoDup (map fst ops_f_items).
Proof. apply (bool_decide_unpack _). vm_compute. exact I. Qed.

Lemma ops_f_default_lookup :
  Forall (fun kv => ops_f None !! kv.1 = Some kv.2) ops_f_items.
Proof. apply (bool_decide_unpack _). vm_compute. exact I. Qed.

(** C8. In the operator table, [%] is spelled [MODULO], and both [^] and
    [**] are spelled [**]; every arithmetic and comparison symbol occurs as
    the key of exactly one item of the table, and that item carries one
    (non-empty) native spelling, which is what the lookup returns. *)
Theorem ops_table_native_spellings :
  call <$> ops_f None !! "%" = Some "MODULO"
  /\ call <$> ops_f None !! "^" = Some "**"
  /\ call <$> ops_f None !! "**" = Some "**"
  /\ Forall (fun sym =>
              exists entry,
                filter (fun kv => kv.1 = sym) ops_f_items = [(sym, entry)]
                /\ ops_f None !! sym = Some entry
                /\ call entry <> EmptyString)
            (arithmetic_symbols ++ comparison_symbols).
Proof.
  split; [vm_compute; reflexivity|].
  split; [vm_compute; reflexivity|].
  split; [vm_compute; reflexivity|].
  unfold arithmetic_symbols, comparison_symbols. simpl app.
  repeat (apply Forall_cons; split;
          [eexists; split; [vm_compute; reflexivity|];
           split; [vm_compute; reflexivity | discriminate]|]).
  apply Forall_nil. exact I.
Qed.

End OperatorTable.

(** ** Operators without a native spelling *)

Section CreateOpGuard.
Import FortranBackend.

Context {St : Type}.
Variable add_var : string -> string -> pyobj -> St -> exn + (pyobj * St).
Variable _process_update_args_old :
  pyobj -> pyobj -> pyobj -> St -> exn + ((pyobj * pyobj * pyobj) * St).

Lemma cast_args_not_not_implemented dts args :
  ~ is_not_implemented (cast_args dts args).
Proof.
  induction dts as [|d dts IH]; simpl; [tauto|].
  destruct (args !! 1) as [a1|]; [|simpl; tauto].
  destruct (PyStr.contains d (str_repr a1)); [simpl; tauto | exact IH].
Qed.

Lemma idx_str_of_not_not_implemented idx :
  ~ is_not_implemented (idx_str_of idx).
Proof.
  unfold idx_str_of.
  destruct (shape idx) as [sh|]; [|simpl; tauto].
  destruct (sh !! 1) as [[|n]|]; try (simpl; tauto).
  destruct (short_name idx); simpl; tauto.
Qed.

(** C2. For an operator registered in [self.ops], [_create_op] raises
    [NotImplementedError] when the native call spelling of the operator is
    empty; it does so whatever the arguments and the base-class methods are,
    so before any node is constructed. Conversely, when the spelling is not
    empty, [_create_op] does not raise [NotImplementedError] (the base-class
    methods it calls not raising one). *)
Theorem create_op_not_implemented_iff_empty_call
    (self : backend) (st : St) (op : string) (interned : bool)
    (node_name : string) (args : list pyobj) (entry : op_entry) :
  ops self !! op = Some entry ->
  (call entry = EmptyString ->
   _create_op add_var _process_update_args_old self st op interned node_name args
   = inl (NotImplementedError (not_implemented_msg op (backend_name self))))
  /\ (call entry <> EmptyString ->
      (forall vtype nm value s, ~ is_not_implemented (add_var vtype nm value s)) ->
      (forall var upd idx s,
          ~ is_not_implemented (_process_update_args_old var upd idx s)) ->
      ~ is_not_implemented
          (_create_op add_var _process_update_args_old self st op interned
             node_name args)).
Proof.
  intros Hop. unfold _create_op. rewrite Hop. split.
  - intros Hc. rewrite bool_decide_eq_true_2 by exact Hc. reflexivity.
  - intros Hc Hadd Hproc. rewrite bool_decide_eq_false_2 by exact Hc.
    assert (Hupd : forall a0 a1 idx s,
               ~ is_not_implemented
                   match _process_update_args_old a0 a1 idx s with
                   | inl e => inl e
                   | inr (var, upd, idx', st2) =>
                       match idx_str_of idx' with
                       | inl e => inl e
                       | inr idx_str =>
                           inr (FortranAssignOp (call entry) (name entry) node_name
                                  [var; upd; py_str idx_str; idx'] idx_l idx_r, st2)
                       end
                   end).
    { intros a0 a1 idx s. specialize (Hproc a0 a1 idx s).
      destruct (_process_update_args_old a0 a1 idx s)
        as [e|[[[var upd] idx'] st2]]; [exact Hproc|].
      pose proof (idx_str_of_not_not_implemented idx') as Hi.
      destruct (idx_str_of idx'); [exact Hi | simpl; tauto]. }
    case_bool_decide.
    + destruct (indexed_update args); [|simpl; tauto].
      destruct args as [|a0 [|a1 [|a2 rest]]]; try (simpl; tauto).
      destruct (short_name a2) as [sn|]; [apply Hupd|].
      specialize (Hadd "state_var" "idx" a2 st).
      destruct (add_var "state_var" "idx" a2 st) as [e|[idx st1]];
        [exact Hadd | apply Hupd].
    + destruct (is_literal op interned "index"); [simpl; tauto|].
      destruct (is_literal op interned "cast"); [|simpl; tauto].
      pose proof (cast_args_not_not_implemented (dtypes self) args) as Hc'.
      destruct (cast_args (dtypes self) args); [exact Hc' | simpl; tauto].
Qed.

End CreateOpGuard.

Section CreateOpExamples.
Import FortranBackend.

Lemma create_op_not_implemented_iff_empty_call_witness :
  _create_op add_var_id process_update_args_id default_backend tt "@" true "op_0"
    [array_of_shape [2; 2]; array_of_shape [2; 2]]
  = inl (NotImplementedError (not_implemented_msg "@" "net_0"))
  /\ ~ is_not_implemented
       (_create_op add_var_id process_update_args_id default_backend tt "+" true "op_1"
          [array_of_shape [2; 2]; array_of_shape [2; 2]]).
Proof.
  split.
  - apply (create_op_not_implemented_iff_empty_call add_var_id process_update_args_id
             default_backend tt "@" true "op_0" _ {| name := "fortrandot"; call := EmptyString |}).
    + vm_compute. reflexivity.
    + reflexivity.
  - apply (create_op_not_implemented_iff_empty_call add_var_id process_update_args_id
             default_backend tt "+" true "op_1" _ {| name := "fortran_add"; call := "+" |}).
    + vm_compute. reflexivity.
    + discriminate.
    + intros vtype nm value s. simpl. tauto.
    + intros var upd idx s. simpl. tauto.
Defined.

(** The node built for a supported operator. *)
Example create_op_add :
  _create_op add_var_id process_update_args_id default_backend tt "+" true "op_1"
    [array_of_shape [2]; array_of_shape [2]]
  = inr (FortranOp "+" "fortran_add" "op_1" [array_of_shape [2]; array_of_shape [2]], tt).
Proof. vm_compute. reflexivity. Qed.

End CreateOpExamples.


(** ** Facts about the string primitives *)

Section PyStrFacts.
Import PyStr.

Lemma length_str_take k s : String.length (str_take k s) = min k (String.length s).
Proof.
  revert s. induction k as [|k IH]; intros [|c s]; simpl; try reflexivity.
  rewrite IH. reflexivity.
Qed.

Lemma length_str_drop k s : String.length (str_drop k s) = String.length s - k.
Proof.
  revert s. induction k as [|k IH]; intros [|c s]; simpl; try lia.
  apply IH.
Qed.

Lemma str_app_cons c (a b : string) : String c a ++ b = String c (a ++ b).
Proof. reflexivity. Qed.

Lemma str_take_drop k s : str_take k s ++ str_drop k s = s.
Proof.
  revert s. induction k as [|k IH]; intros [|c s]; simpl; try reflexivity.
  rewrite str_app_cons, IH. reflexivity.
Qed.

Lemma str_drop_add a b s : str_drop (a + b) s = str_drop b (str_drop a s).
Proof.
  revert s. induction a as [|a IH]; intros s; simpl; [reflexivity|].
  destruct s as [|c s]; [destruct b; reflexivity | apply IH].
Qed.

Lemma str_append_assoc (a b c : string) : (a ++ b) ++ c = a ++ (b ++ c).
Proof.
  induction a as [|x a IH]; [reflexivity|].
  rewrite !str_app_cons, IH. reflexivity.
Qed.

Lemma length_str_append (a b : string) :
  String.length (a ++ b) = String.length a + String.length b.
Proof.
  induction a as [|x a IH]; [reflexivity|].
  rewrite str_app_cons. simpl. rewrite IH. reflexivity.
Qed.

Lemma str_take_all k s : String.length s <= k -> str_take k s = s.
Proof.
  revert s. induction k as [|k IH]; intros [|c s]; simpl; intros H;
    try reflexivity; try lia.
  rewrite IH by lia. reflexivity.
Qed.

(** A slice starting at [start] is a chunk of the text that follows [start]. *)
Lemma slice_chunk s start m :
  str_drop start s = slice s start (start + m) ++ str_drop (start + m) s.
Proof.
  unfold slice. replace (start + m - start) with m by lia.
  rewrite str_drop_add. symmetry. apply str_take_drop.
Qed.

Lemma length_slice s start stop :
  String.length (slice s start stop) = min (stop - start) (String.length s - start).
Proof. unfold slice. rewrite length_str_take, length_str_drop. reflexivity. Qed.

Lemma length_str_rev_acc s acc :
  String.length (str_rev_acc s acc) = String.length s + String.length acc.
Proof.
  revert acc. induction s as [|c s IH]; intros acc; simpl; [reflexivity|].
  rewrite IH. simpl. lia.
Qed.

Lemma length_str_rev s : String.length (str_rev s) = String.length s.
Proof. unfold str_rev. rewrite length_str_rev_acc. simpl. lia. Qed.

Lemma prefix_length a b :
  String.prefix a b = true -> String.length a <= String.length b.
Proof.
  revert b. induction a as [|x a IH]; intros b H; simpl; [lia|].
  destruct b as [|y b]; simpl in H; [discriminate H|].
  destruct (Ascii.ascii_dec x y); [|discriminate H].
  apply IH in H. simpl. lia.
Qed.

(** An occurrence found by [find] lies inside the text. *)
Lemma find_bound sub s i :
  find sub s = Some i -> i + String.length sub <= String.length s.
Proof.
  revert i. induction s as [|c s IH]; intros i H.
  - cbn [find] in H. destruct (String.prefix sub EmptyString) eqn:P; [|discriminate H].
    inversion H; subst. apply prefix_length in P. simpl in *. lia.
  - cbn [find] in H. destruct (String.prefix sub (String c s)) eqn:P.
    + inversion H; subst. apply prefix_length in P. simpl in *. lia.
    + destruct (find sub s) as [j|]; [|discriminate H].
      inversion H; subst. specialize (IH j eq_refl). simpl. lia.
Qed.

Lemma max_list_lt (l : list nat) b :
  l <> [] -> Forall (fun i => i < b) l -> max_list l < b.
Proof.
  induction l as [|x l IH]; intros Hne Hall; [congruence|].
  inversion Hall as [|? ? Hx Hl]; subst. simpl.
  destruct l as [|y l]; [simpl; lia|].
  assert (max_list (y :: l) < b) by (apply IH; [discriminate | exact Hl]).
  lia.
Qed.

End PyStrFacts.

(** ** Line wrapping *)

Section LineWrapping.
Import FortranGen.

(** Inside a line, [_find_first_op] answers a position strictly inside the
    window that it inspects. *)
Lemma find_first_op_inside code start m k :
  start + m < String.length code ->
  _find_first_op code start (start + m) = inr k -> k < m.
Proof.
  intros Hlen. unfold _find_first_op.
  destruct (Nat.ltb_spec (start + m) (String.length code)) as [_|?]; [|lia].
  set (code_tmp := PyStr.slice code start (start + m)).
  assert (Htmp : String.length code_tmp = m).
  { unfold code_tmp. rewrite length_slice. lia. }
  set (indices := omap (fun op => PyStr.find op code_tmp) wrap_ops).
  assert (Hall : Forall (fun i => i < m) indices).
  { apply Forall_forall. intros i Hi.
    apply list_elem_of_omap in Hi as (op & Hop & Hfind).
    apply find_bound in Hfind. rewrite Htmp in Hfind.
    assert (0 < String.length op); [|lia].
    unfold wrap_ops in Hop. repeat (apply elem_of_cons in Hop as [->|Hop]);
      try (simpl; lia). apply elem_of_nil in Hop. contradiction. }
  clearbody indices. clearbody code_tmp.
  assert (Hspace : forall r : exn + nat,
             match PyStr.find " " (PyStr.str_rev code_tmp) with
             | Some i => inr (String.length code_tmp - 1 - i)
             | None => inl ValueError
             end = r -> r = inr k -> k < m).
  { intros r <-. destruct (PyStr.find " " (PyStr.str_rev code_tmp)) as [j|] eqn:Hsp;
      intros H; [|discriminate H].
    injection H as <-. apply find_bound in Hsp.
    rewrite length_str_rev, Htmp in Hsp. simpl in Hsp. lia. }
  case_bool_decide as Hnil; simpl.
  - intros H. eapply Hspace; [reflexivity | exact H].
  - destruct (0 <? max_list indices).
    + intros H. injection H as <-. apply max_list_lt; assumption.
    + intros H. eapply Hspace; [reflexivity | exact H].
Qed.

(** At the end of a line, [_find_first_op] answers [stop]. *)
Lemma find_first_op_at_end code start stop :
  String.length code <= stop -> _find_first_op code start stop = inr stop.
Proof.
  intros Hlen. unfold _find_first_op.
  destruct (Nat.ltb_spec stop (String.length code)); [lia | reflexivity].
Qed.

Lemma code_append_app self a b :
  code (code_append (code_append self a) b) = (code self ++ [a; b])%list.
Proof. simpl. rewrite <- app_assoc. reflexivity. Qed.

(** What the loop appends when it comes to an end: for every chunk a line
    break and the chunk behind the continuation prefix; the chunks are
    consecutive pieces of the line, of at most [n] characters each. *)
Lemma wrap_loop_pieces fuel code_line : forall idx self self',
  wrap_loop fuel code_line idx self = Some (inr self') ->
  exists chunks tail,
    code self' = (code self ++ continuation_pieces chunks)%list
    /\ lvl self' = lvl self
    /\ Forall (fun c => String.length c <= n) chunks
    /\ PyStr.str_drop idx code_line = PyStr.str_concat chunks ++ tail
    /\ (idx < n -> chunks <> []).
Proof.
  induction fuel as [|fuel IH]; intros idx self self' H.
  - simpl in H. destruct (Nat.ltb_spec idx n) as [Hlt|Hge]; [discriminate H|].
    injection H as <-. exists [], (PyStr.str_drop idx code_line). simpl.
    rewrite app_nil_r. repeat split; [constructor | lia].
  - simpl in H. destruct (Nat.ltb_spec idx n) as [Hlt|Hge].
    + destruct (_find_first_op code_line idx (idx + n)) as [e|idx_new] eqn:Hf;
        [discriminate H|].
      apply IH in H as (chunks & tail & Hcode & Hlvl & Hall & Hdrop & _).
      set (chunk := PyStr.slice code_line idx (idx + idx_new)) in *.
      exists (chunk :: chunks), tail. repeat split.
      * rewrite Hcode. unfold add_linebreak. rewrite code_append_app.
        rewrite <- app_assoc. reflexivity.
      * rewrite Hlvl. reflexivity.
      * constructor; [|exact Hall]. unfold chunk. rewrite length_slice.
        destruct (Nat.lt_ge_cases (idx + n) (String.length code_line)) as [Hin|Hend].
        -- apply (find_first_op_inside _ _ _ _ Hin) in Hf. lia.
        -- rewrite (find_first_op_at_end _ _ _ Hend) in Hf. injection Hf as <-. lia.
      * rewrite (slice_chunk code_line idx idx_new). fold chunk. rewrite Hdrop.
        simpl. rewrite str_append_assoc. reflexivity.
      * discriminate.
    + injection H as <-. exists [], (PyStr.str_drop idx code_line). simpl.
      rewrite app_nil_r. repeat split; [constructor | lia].
Qed.

(** The loop is over as soon as [idx] has reached [n]. *)
Lemma wrap_loop_done fuel code_line idx self :
  n <= idx -> wrap_loop fuel code_line idx self = Some (inr self).
Proof.
  intros Hge. destruct fuel; simpl;
    (destruct (Nat.ltb_spec idx n); [lia | reflexivity]).
Qed.

(** A line that is broken once: at most [n] characters follow the first
    break. One round of the loop appends them all. *)
Lemma add_code_line_one_break fuel self code_str idx :
  let code_line := code_line_of self code_str in
  n < String.length code_line ->
  _find_first_op code_line 0 n = inr idx ->
  String.length code_line <= idx + n ->
  add_code_line (S fuel) self code_str
  = Some (inr {| code := (code self ++ [PyStr.str_take idx code_line; PyStr.newline;
                                        (continuation ++ PyStr.str_drop idx code_line)%string])%list;
                 lvl := lvl self |})
  /\ PyStr.str_take idx code_line ++ PyStr.str_drop idx code_line = code_line.
Proof.
  intros code_line Hlong Hf Hend. split; [|apply str_take_drop].
  assert (Hidx : idx < n).
  { apply (find_first_op_inside code_line 0 n idx); [simpl; lia | exact Hf]. }
  unfold add_code_line. fold code_line.
  destruct (Nat.ltb_spec n (String.length code_line)); [|lia].
  rewrite Hf. cbn [wrap_loop].
  destruct (Nat.ltb_spec idx n); [|lia].
  rewrite (find_first_op_at_end code_line idx (idx + n) Hend).
  rewrite wrap_loop_done by lia. unfold add_linebreak.
  do 2 f_equal. unfold code_append at 1. cbn [lvl code]. f_equal.
  rewrite code_append_app. rewrite <- app_assoc. simpl. do 3 f_equal.
  - unfold PyStr.slice. rewrite Nat.sub_0_r. reflexivity.
  - unfold PyStr.slice. rewrite str_take_all; [reflexivity|].
    rewrite length_str_drop. lia.
Qed.

(** C4 (as amended). A code line of at most 60 characters is appended
    unchanged, as one piece. For a longer line, when [add_code_line] comes
    to an end without an exception: the first piece appended holds fewer
    than 60 characters of the line; it is followed by at least one
    continuation; every continuation consists of a line break and a piece
    that begins with five spaces and [& ] and goes on with at most 60
    characters of the line, so no appended piece is longer than 67
    characters; and the chunks of the line are consecutive, so that together
    they are an initial part of the line. When at most 60 characters follow
    the first break, [add_code_line] does come to an end, after one
    continuation that holds all of them. *)
Theorem add_code_line_pieces (fuel : nat) (self : CodeGen) (code_str : string) :
  let code_line := code_line_of self code_str in
  (String.length code_line <= n ->
   add_code_line fuel self code_str = Some (inr (code_append self code_line)))
  /\ (n < String.length code_line ->
      forall idx, _find_first_op code_line 0 n = inr idx ->
      String.length code_line <= idx + n ->
      add_code_line (S fuel) self code_str
      = Some (inr {| code := (code self
                              ++ [PyStr.str_take idx code_line; PyStr.newline;
                                  (continuation ++ PyStr.str_drop idx code_line)%string])%list;
                     lvl := lvl self |})
      /\ PyStr.str_take idx code_line ++ PyStr.str_drop idx code_line = code_line)
  /\ (n < String.length code_line ->
      forall self', add_code_line fuel self code_str = Some (inr self') ->
      exists first chunks tail,
        code self' = (code self ++ first :: continuation_pieces chunks)%list
        /\ lvl self' = lvl self
        /\ chunks <> []
        /\ String.length first < n
        /\ Forall (fun c => String.length c <= n) chunks
        /\ Forall (fun piece => String.length piece <= n + 7)
             (first :: continuation_pieces chunks)
        /\ code_line = first ++ PyStr.str_concat chunks ++ tail).
Proof.
  intros code_line. split; [|split].
  - intros Hshort. unfold add_code_line. fold code_line.
    destruct (Nat.ltb_spec n (String.length code_line)); [lia|].
    reflexivity.
  - intros Hlong idx Hf Hend.
    apply (add_code_line_one_break fuel self code_str idx Hlong Hf Hend).
  - intros Hlong self' H. unfold add_code_line in H. fold code_line in H.
    destruct (Nat.ltb_spec n (String.length code_line)); [|lia].
    destruct (_find_first_op code_line 0 n) as [e|idx] eqn:Hf; [discriminate H|].
    assert (Hidx : idx < n).
    { apply (find_first_op_inside code_line 0 n idx); [simpl; lia | exact Hf]. }
    apply wrap_loop_pieces in H as (chunks & tail & Hcode & Hlvl & Hall & Hdrop & Hne).
    set (first := PyStr.slice code_line 0 idx) in *.
    assert (Hfirst : String.length first < n).
    { unfold first. rewrite length_slice. lia. }
    exists first, chunks, tail. repeat split.
    + rewrite Hcode. simpl. rewrite <- app_assoc. reflexivity.
    + rewrite Hlvl. reflexivity.
    + apply Hne. exact Hidx.
    + exact Hfirst.
    + exact Hall.
    + constructor; [lia|]. clear -Hall.
      induction Hall as [|c chunks Hc Hall IH]; simpl; [constructor|].
      constructor; [unfold n; simpl; lia|].
      constructor; [|exact IH].
      rewrite length_str_append. unfold continuation, n in *. simpl. lia.
    + rewrite <- Hdrop. unfold first, PyStr.slice. rewrite Nat.sub_0_r. simpl.
      symmetry. apply str_take_drop.
Qed.

Lemma add_code_line_pieces_witness :
  add_code_line 0 indented_gen "implicit none"
  = Some (inr (code_append indented_gen (PyStr.tab ++ "implicit none")))
  /\ (add_code_line 1 indented_gen jacobian_declaration
      = Some (inr {| code := [PyStr.newline;
                              PyStr.tab
                              ++ "double precision, intent(inout) :: dfdu(ndim,ndim),";
                              PyStr.newline;
                              continuation ++ " dfdp(ndim,*)"];
                     lvl := 1 |})
      /\ (PyStr.tab ++ "double precision, intent(inout) :: dfdu(ndim,ndim),")
         ++ " dfdp(ndim,*)"
         = PyStr.tab ++ jacobian_declaration)
  /\ exists first chunks tail,
      [PyStr.newline;
       PyStr.tab ++ "double precision, intent(inout) :: dfdu(ndim,ndim),";
       PyStr.newline;
       continuation ++ " dfdp(ndim,*)"]
      = (code indented_gen ++ first :: continuation_pieces chunks)%list
      /\ 1 = lvl indented_gen
      /\ chunks <> []
      /\ String.length first < n
      /\ Forall (fun c => String.length c <= n) chunks
      /\ Forall (fun piece => String.length piece <= n + 7)
           (first :: continuation_pieces chunks)
      /\ code_line_of indented_gen jacobian_declaration
         = first ++ PyStr.str_concat chunks ++ tail.
Proof.
  split; [|split].
  - apply (proj1 (add_code_line_pieces 0 indented_gen "implicit none")).
    apply Nat.leb_le. vm_compute. reflexivity.
  - apply (proj1 (proj2 (add_code_line_pieces 0 indented_gen jacobian_declaration))
             ltac:(apply Nat.ltb_lt; vm_compute; reflexivity) 52).
    + vm_compute. reflexivity.
    + apply Nat.leb_le. vm_compute. reflexivity.
  - apply (proj2 (proj2 (add_code_line_pieces 3 indented_gen jacobian_declaration))
             ltac:(apply Nat.ltb_lt; vm_compute; reflexivity)
             {| code := [PyStr.newline;
                         PyStr.tab
                         ++ "double precision, intent(inout) :: dfdu(ndim,ndim),";
                         PyStr.newline;
                         continuation ++ " dfdp(ndim,*)"];
                lvl := 1 |}).
    vm_compute. reflexivity.
Defined.

(** C4 fails as stated: for the equation below the continuation piece that
    is appended has 65 characters, and the end of the equation
    ([/time_constant_exc + input_current]) is not appended at all. *)
Lemma add_code_line_overlong_and_lossy :
  add_code_line 2 new_gen long_equation
  = Some (inr {| code := ["y_delta(1) = "; PyStr.newline;
                          continuation
                          ++ "-(membrane_potential_exc_pop - reversal_potential_exc_pop)"];
                 lvl := 0 |})
  /\ 60 < String.length
            (continuation
             ++ "-(membrane_potential_exc_pop - reversal_potential_exc_pop)")
  /\ "y_delta(1) = " ++ "-(membrane_potential_exc_pop - reversal_potential_exc_pop)"
     <> long_equation
  /\ long_equation
     = "y_delta(1) = " ++ "-(membrane_potential_exc_pop - reversal_potential_exc_pop)"
       ++ "/time_constant_exc + input_current".
Proof.
  split; [vm_compute; reflexivity|].
  split; [apply Nat.ltb_lt; vm_compute; reflexivity|].
  split; [|vm_compute; reflexivity].
  intros H. apply (f_equal String.length) in H. vm_compute in H. discriminate H.
Qed.

(** The loop does not come to an end on every line: after a chunk that
    ends at a blank, a window with no operator and no further blank makes
    no progress. *)
Lemma wrap_loop_stuck fuel code_line idx :
  idx < n -> _find_first_op code_line idx (idx + n) = inr 0 ->
  forall self, wrap_loop fuel code_line idx self = None.
Proof.
  intros Hidx Hf. induction fuel as [|fuel IH]; intros self; simpl.
  - destruct (Nat.ltb_spec idx n); [reflexivity | lia].
  - destruct (Nat.ltb_spec idx n); [|lia]. rewrite Hf.
    rewrite Nat.add_0_r. apply IH.
Qed.

Lemma add_code_line_diverges :
  forall fuel, add_code_line fuel new_gen long_call = None.
Proof.
  intros fuel. unfold add_code_line.
  change (code_line_of new_gen long_call) with long_call.
  replace (n <? String.length long_call) with true by (vm_compute; reflexivity).
  replace (_find_first_op long_call 0 n) with (@inr exn nat 3)
    by (vm_compute; reflexivity).
  apply wrap_loop_stuck; [unfold n; lia | vm_compute; reflexivity].
Qed.

(** A line of more than 60 characters without operator and blank in its
    first 60 characters raises [ValueError]. *)
Example add_code_line_value_error :
  add_code_line 1 new_gen dense_assignment = Some (inl ValueError).
Proof. vm_compute. reflexivity. Qed.

End LineWrapping.

(** ** Removal of empty layers and operators *)

Section LayerCleanup.
Import FortranBackend.
Local Open Scope list_scope.
Context {Op : Type}.

Implicit Types (l snapshot : list (option Op)) (h : @store Op) (r layer : ref).

Lemma store_set_same h r l : store_set h r l r = l.
Proof. unfold store_set. rewrite Nat.eqb_refl. reflexivity. Qed.

Lemma store_set_other h r l r' : r' <> r -> store_set h r l r' = h r'.
Proof.
  intros Hne. unfold store_set.
  destruct (Nat.eqb_spec r' r); [contradiction | reflexivity].
Qed.

Lemma non_None_cons_None l : non_None (None :: l) = non_None l.
Proof.
  unfold non_None. rewrite filter_cons_False by (intros [x Hx]; discriminate Hx).
  reflexivity.
Qed.

Lemma non_None_cons_Some (x : Op) l : non_None (Some x :: l) = Some x :: non_None l.
Proof.
  unfold non_None. rewrite filter_cons_True by (exists x; reflexivity).
  reflexivity.
Qed.

(** A list without [None] entries is left as it is. *)
Lemma non_None_id l : count_None l = 0 -> non_None l = l.
Proof.
  induction l as [|[x|] l IH]; simpl; intros H.
  - reflexivity.
  - rewrite non_None_cons_Some, IH by exact H. reflexivity.
  - discriminate H.
Qed.

Lemma count_None_non_None l : count_None (non_None l) = 0.
Proof.
  induction l as [|[x|] l IH].
  - reflexivity.
  - rewrite non_None_cons_Some. exact IH.
  - rewrite non_None_cons_None. exact IH.
Qed.

Lemma non_None_idemp l : non_None (non_None l) = non_None l.
Proof. apply non_None_id, count_None_non_None. Qed.

Lemma not_in_non_None l : None ∉ non_None l.
Proof.
  unfold non_None. intros H. apply list_elem_of_filter in H as [[x Hx] _].
  discriminate Hx.
Qed.

(** [l.index(None)] finds an entry as soon as there is one, and popping it
    leaves the operations alone. *)
Lemma index_None_pop l :
  0 < count_None l ->
  exists i l', index_None l = Some i /\ list_pop i l = Some l'
    /\ non_None l' = non_None l /\ count_None l' = count_None l - 1.
Proof.
  induction l as [|[x|] l IH]; simpl; intros Hpos.
  - lia.
  - destruct (IH Hpos) as (i & l' & Hi & Hpop & Hnn & Hc).
    exists (S i), (Some x :: l'). rewrite Hi. unfold list_pop in *. simpl.
    destruct (Nat.ltb_spec i (length l)); [|discriminate Hpop].
    injection Hpop as <-.
    destruct (Nat.ltb_spec (S i) (S (length l))); [|lia].
    split; [reflexivity|]. split; [reflexivity|]. split; [|exact Hc].
    rewrite !non_None_cons_Some, Hnn. reflexivity.
  - exists 0, l. unfold list_pop. simpl.
    split; [reflexivity|]. split; [reflexivity|]. split; [|lia].
    rewrite non_None_cons_None. reflexivity.
Qed.

(** The inner loop: it raises no exception, changes the list behind [layer]
    only, and keeps the operations of that list. *)
Lemma remove_none_ops_spec snapshot : forall layer h,
  count_None snapshot <= count_None (h layer) ->
  exists h', remove_none_ops snapshot layer h = inr h'
    /\ (forall r, r <> layer -> h' r = h r)
    /\ non_None (h' layer) = non_None (h layer)
    /\ count_None (h' layer) = count_None (h layer) - count_None snapshot.
Proof.
  induction snapshot as [|[x|] snapshot IH]; intros layer h Hc; simpl in *.
  - exists h. repeat split; lia.
  - apply IH. exact Hc.
  - destruct (index_None_pop (h layer)) as (i & l' & Hi & Hpop & Hnn & Hcl); [lia|].
    rewrite Hi, Hpop.
    destruct (IH layer (store_set h layer l')) as (h' & Hrun & Hother & Hnn' & Hc').
    { rewrite store_set_same. lia. }
    exists h'. rewrite store_set_same in *. repeat split.
    + exact Hrun.
    + intros r Hr. rewrite Hother by exact Hr. apply store_set_other. exact Hr.
    + rewrite Hnn'. exact Hnn.
    + lia.
Qed.

Lemma remove_none_ops_layer layer h :
  exists h', remove_none_ops (h layer) layer h = inr h'
    /\ (forall r, r <> layer -> h' r = h r)
    /\ h' layer = non_None (h layer).
Proof.
  destruct (remove_none_ops_spec (h layer) layer h) as (h' & Hrun & Hother & Hnn & Hc);
    [lia|].
  exists h'. repeat split; [exact Hrun | exact Hother |].
  rewrite <- Hnn. symmetry. apply non_None_id. lia.
Qed.

Lemma list_pop_middle {A : Type} (kept : list A) (x : A) (rest : list A) :
  list_pop (length kept) (kept ++ x :: rest) = Some (kept ++ rest).
Proof.
  unfold list_pop. rewrite length_app. simpl.
  destruct (Nat.ltb_spec (length kept) (length kept + S (length rest))) as [_|?];
    [|lia].
  f_equal. induction kept as [|k kept IH]; simpl; [reflexivity|].
  f_equal. exact IH.
Qed.

Section Loop.

(** The store at the start of [compile]. *)
Variable h0 : @store Op.

Lemma prepare_loop_spec (snapshot : list ref) : forall (kept : list ref) h,
  partly_cleaned h0 h ->
  exists h', prepare_loop snapshot (length kept) (kept ++ snapshot) h
             = inr (kept ++ filter (kept_layer h0) snapshot, h')
    /\ partly_cleaned h0 h'
    /\ (forall r, h r = non_None (h0 r) -> h' r = non_None (h0 r))
    /\ (forall r, r ∈ snapshot -> h' r = non_None (h0 r)).
Proof.
  induction snapshot as [|layer snapshot IH]; intros kept h Hpc; simpl.
  - exists h. rewrite filter_nil. repeat split; [exact Hpc | tauto |].
    intros r Hr. apply elem_of_nil in Hr. contradiction.
  - destruct (remove_none_ops_layer layer h) as (h1 & Hrun & Hother & Hlayer).
    rewrite Hrun.
    assert (Hclean : h1 layer = non_None (h0 layer)).
    { rewrite Hlayer. destruct (Hpc layer) as [-> | ->];
        [reflexivity | apply non_None_idemp]. }
    assert (Hpc1 : partly_cleaned h0 h1).
    { intros r. destruct (Nat.eq_dec r layer) as [->|Hne];
        [right; exact Hclean | rewrite (Hother r Hne); apply Hpc]. }
    assert (Hkeep1 : forall r, h r = non_None (h0 r) -> h1 r = non_None (h0 r)).
    { intros r Hr. destruct (Nat.eq_dec r layer) as [->|Hne];
        [exact Hclean | rewrite (Hother r Hne); exact Hr]. }
    destruct (Nat.eqb_spec (length (h1 layer)) 0) as [Hempty|Hfull].
    + rewrite list_pop_middle.
      destruct (IH kept h1 Hpc1) as (h' & Hloop & Hpc' & Hkeep' & Hsnap).
      exists h'. rewrite Hloop. repeat split.
      * rewrite filter_cons_False; [reflexivity|].
        unfold kept_layer. rewrite <- Hclean.
        intros Hne. apply Hne. apply length_zero_iff_nil. exact Hempty.
      * exact Hpc'.
      * intros r Hr. apply Hkeep', Hkeep1, Hr.
      * intros r Hr. apply elem_of_cons in Hr as [->|Hr];
          [apply Hkeep', Hclean | apply Hsnap, Hr].
    + destruct (IH (kept ++ [layer]) h1 Hpc1) as (h' & Hloop & Hpc' & Hkeep' & Hsnap).
      rewrite length_app in Hloop. simpl in Hloop.
      rewrite <- app_assoc in Hloop. simpl in Hloop.
      exists h'. rewrite Hloop. repeat split.
      * rewrite filter_cons_True; [rewrite <- app_assoc; reflexivity|].
        unfold kept_layer. rewrite <- Hclean. intros Hnil.
        apply Hfull. rewrite Hnil. reflexivity.
      * exact Hpc'.
      * intros r Hr. apply Hkeep', Hkeep1, Hr.
      * intros r Hr. apply elem_of_cons in Hr as [->|Hr];
          [apply Hkeep', Hclean | apply Hsnap, Hr].
Qed.

End Loop.

Lemma map_filter_kept (f g : ref -> list (option Op)) (ls : list ref) :
  (forall r, r ∈ ls -> g r = f r) ->
  map g (filter (fun r => f r <> []) ls) = filter (fun l => l <> []) (map f ls).
Proof.
  induction ls as [|r ls IH]; intros Hg; [reflexivity|].
  assert (IH' : map g (filter (fun r => f r <> []) ls)
                = filter (fun l => l <> []) (map f ls)).
  { apply IH. intros r' Hr'. apply Hg. apply elem_of_cons. right. exact Hr'. }
  simpl map. rewrite !filter_cons.
  destruct (decide (f r <> [])) as [Hne|Hnil].
  - simpl. rewrite IH', Hg by (apply elem_of_cons; left; reflexivity). reflexivity.
  - exact IH'.
Qed.

Lemma concat_filter_non_nil {A : Type} (ls : list (list A)) :
  concat (filter (fun xs : list A => xs <> []) ls) = concat ls.
Proof.
  induction ls as [|xs ls IH]; [reflexivity|].
  rewrite filter_cons. destruct (decide (xs <> [])) as [Hne|Hnil]; simpl.
  - rewrite IH. reflexivity.
  - destruct xs; [exact IH | exfalso; apply Hnil; discriminate].
Qed.

Lemma non_None_concat (ls : list (list (option Op))) :
  non_None (concat ls) = concat (map non_None ls).
Proof.
  induction ls as [|l ls IH]; [reflexivity|].
  simpl. unfold non_None in *. rewrite filter_app, IH. reflexivity.
Qed.

(** C5. Whatever layers the backend holds at the start of [compile], the
    preparation phase comes to an end without an exception; the layers that
    remain are the original layers without their [None] entries, those left
    empty being dropped. So every remaining layer is non-empty and free of
    [None]; the operations that remain are the non-[None] entries of the
    original layers, in their original order; and the remaining layers are
    original layers, in their original order. *)
Theorem compile_prepare_removes_empty (self_layers : list ref) (h : @store Op) :
  exists layers' h',
    compile_prepare self_layers h = inr (layers', h')
    /\ map h' layers'
       = filter (fun l => l <> []) (map (fun r => non_None (h r)) self_layers)
    /\ Forall (fun r => h' r <> [] /\ None ∉ h' r) layers'
    /\ concat (map h' layers') = non_None (concat (map h self_layers))
    /\ layers' `sublist_of` self_layers.
Proof.
  destruct (prepare_loop_spec h self_layers [] h) as (h' & Hloop & _ & _ & Hsnap).
  { intros r. left. reflexivity. }
  simpl in Hloop.
  assert (Hmap : map h' (filter (kept_layer h) self_layers)
                 = filter (fun l => l <> []) (map (fun r => non_None (h r)) self_layers)).
  { apply (map_filter_kept (fun r => non_None (h r)) h' self_layers). exact Hsnap. }
  exists (filter (kept_layer h) self_layers), h'.
  split; [exact Hloop|]. split; [exact Hmap|]. split; [|split].
  - apply Forall_forall. intros r Hr.
    apply list_elem_of_filter in Hr as [Hkept Hin].
    rewrite (Hsnap r Hin). split; [exact Hkept | apply not_in_non_None].
  - rewrite Hmap, concat_filter_non_nil, non_None_concat, map_map. reflexivity.
  - apply sublist_filter.
Qed.

End LayerCleanup.

(** Two entries of [self.layers] that refer to one list, a layer of [None]
    entries only, and a mixed layer. *)
Example compile_prepare_aliased :
  let h : @FortranBackend.store string :=
    fun r => match r with
             | 0 => [Some "a"; None]
             | 1 => [None; None]
             | 2 => [None; Some "b"; None; Some "c"]
             | _ => []
             end in
  match FortranBackend.compile_prepare [0; 1; 0; 2; 3] h with
  | inr (layers', h') => Some (layers', map h' layers')
  | inl _ => None
  end
  = Some ([0; 0; 2], [[Some "a"]; [Some "a"]; [Some "b"; Some "c"]]).
Proof. vm_compute. reflexivity. Qed.

(** ** Vectorized nodes *)

Section VectorizedNode.
Import VectorizedNodeIR.
Context {T G V : Type}.
Variable graph_copy : G -> G.

Lemma foldl_set_op_value (items : list (string * V)) : forall fr : @frame V,
  NoDup items.*1 ->
  let fr' := foldl set_op_value fr items in
  node_values fr' = node_values fr
  /\ new_values fr' = new_values fr
  /\ op_values fr' = (wrap <$> (list_to_map items : gmap string V)) ∪ op_values fr.
Proof.
  induction items as [|[k v] items IH]; intros fr Hnd; simpl.
  - rewrite fmap_empty, (left_id_L ∅ (∪)). auto.
  - apply NoDup_cons in Hnd as [Hk Hnd].
    destruct (IH (set_op_value fr (k, v)) Hnd) as (-> & -> & ->). simpl.
    split; [reflexivity|]. split; [reflexivity|].
    rewrite fmap_insert, <- insert_union_l. symmetry. apply insert_union_r.
    rewrite lookup_fmap, (not_elem_of_list_to_map_1 _ _ Hk). reflexivity.
Qed.

Lemma vectorize_operator_spec (fr : @frame V) op_key value_dict :
  let fr' := vectorize_operator fr (op_key, value_dict) in
  node_values fr' = node_values fr
  /\ new_values fr' = <[op_key := wrap_dict value_dict]> (new_values fr).
Proof.
  unfold vectorize_operator. cbn [fst snd].
  match goal with
  | |- context [foldl set_op_value ?fr1 ?items] =>
      destruct (foldl_set_op_value items fr1) as (Hn & Hv & Ho)
  end.
  { apply NoDup_fst_map_to_list. }
  cbn zeta in *. simpl. rewrite Hn, Hv, Ho. simpl. unfold copy.
  rewrite list_to_map_to_list, (right_id_L ∅ (∪)). auto.
Qed.

Lemma foldl_vectorize_operator (items : list (string * gmap string V)) :
  forall fr : @frame V,
  NoDup items.*1 ->
  let fr' := foldl vectorize_operator fr items in
  node_values fr' = node_values fr
  /\ new_values fr'
     = (wrap_dict <$> (list_to_map items : gmap string (gmap string V)))
       ∪ new_values fr.
Proof.
  induction items as [|[k d] items IH]; intros fr Hnd; simpl.
  - rewrite fmap_empty, (left_id_L ∅ (∪)). auto.
  - apply NoDup_cons in Hnd as [Hk Hnd].
    destruct (IH (vectorize_operator fr (k, d)) Hnd) as (-> & ->).
    destruct (vectorize_operator_spec fr k d) as (-> & ->).
    split; [reflexivity|].
    rewrite fmap_insert, <- insert_union_l. symmetry. apply insert_union_r.
    rewrite lookup_fmap, (not_elem_of_list_to_map_1 _ _ Hk). reflexivity.
Qed.

(** The constructor maps [wrap] over the values of the source node. *)
Lemma init_fmap (node_ir : NodeIR.NodeIR T G V) d :
  NodeIR.values node_ir = Some d ->
  __init__ graph_copy node_ir
  = inr ({| template := NodeIR.template node_ir;
            _op_graph := graph_copy (NodeIR.op_graph node_ir);
            values := wrap_dict <$> d |},
         node_ir).
Proof.
  intros Hd. unfold __init__. rewrite Hd. cbn [node_values].
  destruct (foldl_vectorize_operator (map_to_list d)
              {| node_values := d; new_values := ∅; op_values := ∅ |})
    as (Hn & Hv).
  { apply NoDup_fst_map_to_list. }
  cbn zeta in *. rewrite Hn, Hv. simpl.
  rewrite list_to_map_to_list, (right_id_L ∅ (∪)).
  destruct node_ir as [t g vs]. simpl in *. subst vs. reflexivity.
Qed.

(** C10 (as amended). Constructing a [VectorizedNodeIR] from a [NodeIR] with a
    values mapping succeeds; for every operator key and variable key of the
    source's mapping, the entry of the new node is the one-element list of
    the source's value; the new mapping has the operator keys of the
    source's, and under each of them the variable keys of the source's; and
    the source node is after the call what it was before. *)
Theorem vectorized_node_wraps_values (node_ir : NodeIR.NodeIR T G V)
    (d : gmap string (gmap string V)) :
  NodeIR.values node_ir = Some d ->
  exists vnode node_after,
    __init__ graph_copy node_ir = inr (vnode, node_after)
    /\ (forall op_key var_key value_dict value,
          d !! op_key = Some value_dict -> value_dict !! var_key = Some value ->
          exists vdict, values vnode !! op_key = Some vdict
                        /\ vdict !! var_key = Some [value])
    /\ dom (values vnode) = dom d
    /\ (forall op_key vdict,
          values vnode !! op_key = Some vdict ->
          exists value_dict, d !! op_key = Some value_dict
                             /\ dom vdict = dom value_dict)
    /\ node_after = node_ir
    /\ NodeIR.values node_after = Some d.
Proof.
  intros Hd. eexists _, _. split; [apply init_fmap; exact Hd|]. simpl.
  split; [|split; [|split; [|split]]].
  - intros op_key var_key value_dict value Hop Hvar.
    exists (wrap_dict value_dict). unfold wrap_dict.
    rewrite !lookup_fmap, Hop, Hvar. auto.
  - apply dom_fmap_L.
  - intros op_key vdict Hv. rewrite lookup_fmap in Hv.
    destruct (d !! op_key) as [value_dict|]; [|discriminate Hv].
    injection Hv as <-. exists value_dict.
    split; [reflexivity | apply dom_fmap_L].
  - reflexivity.
  - exact Hd.
Qed.

End VectorizedNode.

Section VectorizedNodeExamples.
Import VectorizedNodeIR.

Lemma vectorized_node_wraps_values_witness :
  exists vnode node_after,
    __init__ id example_node = inr (vnode, node_after)
    /\ (forall op_key var_key value_dict value,
          example_values !! op_key = Some value_dict ->
          value_dict !! var_key = Some value ->
          exists vdict, values vnode !! op_key = Some vdict
                        /\ vdict !! var_key = Some [value])
    /\ dom (values vnode) = dom example_values
    /\ (forall op_key vdict,
          values vnode !! op_key = Some vdict ->
          exists value_dict, example_values !! op_key = Some value_dict
                             /\ dom vdict = dom value_dict)
    /\ node_after = example_node
    /\ NodeIR.values node_after = Some example_values.
Proof. apply (vectorized_node_wraps_values id example_node example_values eq_refl). Defined.

Example vectorized_example_values :
  match __init__ id example_node with
  | inr (vnode, _) => Some (values vnode)
  | inl _ => None
  end
  = Some {[ "rate_op" := {[ "r" := [0%Z]; "tau" := [10%Z] ]} ]}.
Proof. vm_compute. reflexivity. Qed.

(** C10 fails as stated, for any [NodeIR]: a node constructed without
    values has [None] for its values, and constructing the vectorized node
    from it raises [AttributeError], so no vectorized node comes out of
    it. *)
Example vectorized_node_without_values :
  NodeIR.values node_without_values = None
  /\ __init__ id node_without_values = inl (AttributeError "items")
  /\ ~ exists vnode node_after,
        __init__ id node_without_values = inr (vnode, node_after).
Proof.
  split; [reflexivity|]. split; [reflexivity|].
  intros (vnode & node_after & H). discriminate H.
Qed.

End VectorizedNodeExamples.

(** ** The equation layer *)

Section EquationLayer.
Import Parser.

Lemma update_differential eq dt vars v r :
  mode eq = differential -> vars !! target eq = Some v ->
  evaluate vars (rhs eq) = inr r ->
  update eq dt vars = inr (<[target eq := (v + r * dt)%Q]> vars).
Proof. intros Hm Hv Hr. unfold update. rewrite Hr, Hm, Hv. reflexivity. Qed.

Lemma update_raises eq dt vars e :
  evaluate vars (rhs eq) = inl e -> update eq dt vars = inl e.
Proof. intros Hr. unfold update. rewrite Hr. reflexivity. Qed.

(** C3. For a differential-mode equation, one evaluation step replaces the
    value [v] of the target variable by [v + evaluate(rhs) * dt] and leaves
    the other variables alone; the equation [d/dt * a = 5. + 2.] compiles
    to a differential-mode equation for [a], and with [a] initially 0 and
    [dt = 0.1] the value of [a] after one step is 0.7. *)
Theorem differential_step_is_forward_euler :
  (forall eq dt vars v r,
      mode eq = differential -> vars !! target eq = Some v ->
      evaluate vars (rhs eq) = inr r ->
      exists vars',
        evaluate_step [eq] dt vars = inr vars'
        /\ vars' !! target eq = Some (v + r * dt)%Q
        /\ forall x, x <> target eq -> vars' !! x = vars !! x)
  /\ compile_equation "d/dt * a = 5. + 2." example_bindings = inr example_equation
  /\ exists vars',
      compile_and_step "d/dt * a = 5. + 2." example_bindings = inr vars'
      /\ vars' !! "a" = Some (7 # 10)%Q.
Proof.
  split; [|split].
  - intros eq dt vars v r Hm Hv Hr.
    exists (<[target eq := (v + r * dt)%Q]> vars). simpl.
    rewrite (update_differential eq dt vars v r Hm Hv Hr).
    split; [reflexivity|]. split; [apply lookup_insert_eq|].
    intros x Hx. apply lookup_insert_ne. congruence.
  - vm_compute. reflexivity.
  - eexists. split; vm_compute; reflexivity.
Qed.

Lemma differential_step_is_forward_euler_witness :
  exists vars',
    evaluate_step [example_equation] (1 # 10)%Q example_bindings = inr vars'
    /\ vars' !! "a" = Some (0 + (5 + 2) * (1 # 10))%Q
    /\ forall x, x <> "a" -> vars' !! x = example_bindings !! x.
Proof.
  apply (proj1 differential_step_is_forward_euler
           example_equation (1 # 10)%Q example_bindings 0%Q (5 + 2)%Q).
  - reflexivity.
  - vm_compute. reflexivity.
  - reflexivity.
Defined.

(** C6. For a differential-mode equation whose target has the value [v],
    one evaluation step with a step size equal to 0 yields variables in
    which the target has a value equal to [v] (and the other variables are
    as before) whenever the right-hand side has a value; when the
    right-hand side has no value the step raises and updates nothing. *)
Theorem differential_step_dt_zero (eq : Equation) (dt : Q)
    (vars : gmap string Q) (v : Q) :
  mode eq = differential -> vars !! target eq = Some v -> (dt == 0)%Q ->
  (forall r, evaluate vars (rhs eq) = inr r ->
     exists vars' v',
       evaluate_step [eq] dt vars = inr vars'
       /\ vars' !! target eq = Some v' /\ (v' == v)%Q
       /\ forall x, x <> target eq -> vars' !! x = vars !! x)
  /\ (forall e, evaluate vars (rhs eq) = inl e ->
      evaluate_step [eq] dt vars = inl e).
Proof.
  intros Hm Hv Hdt. split.
  - intros r Hr.
    exists (<[target eq := (v + r * dt)%Q]> vars), (v + r * dt)%Q. simpl.
    rewrite (update_differential eq dt vars v r Hm Hv Hr).
    split; [reflexivity|]. split; [apply lookup_insert_eq|]. split.
    + rewrite Hdt. ring.
    + intros x Hx. apply lookup_insert_ne. congruence.
  - intros e He. simpl. rewrite (update_raises eq dt vars e He). reflexivity.
Qed.

Lemma differential_step_dt_zero_witness :
  exists vars' v',
    evaluate_step [example_equation] 0%Q example_bindings = inr vars'
    /\ vars' !! "a" = Some v' /\ (v' == 0)%Q
    /\ forall x, x <> "a" -> vars' !! x = example_bindings !! x.
Proof.
  apply (proj1 (differential_step_dt_zero example_equation 0%Q example_bindings 0%Q
                  eq_refl ltac:(vm_compute; reflexivity) (Qeq_refl 0%Q))
           (5 + 2)%Q).
  reflexivity.
Defined.

End EquationLayer.

(** ** Slices *)

Section Slices.
Import Parser.

Lemma split_top_length sep s : forall depth cur,
  length (split_top sep s depth cur) = S (count_top sep s depth).
Proof.
  induction s as [|c s IH]; intros depth cur; simpl; [reflexivity|].
  destruct ((depth =? 0) && (nat_of_ascii c =? nat_of_ascii sep)); simpl.
  - rewrite IH. reflexivity.
  - apply IH.
Qed.

Lemma parse_index_arg_many_colons arg :
  2 < colon_count arg -> parse_index_arg arg = inl (SyntaxError slicing_arity_msg).
Proof.
  unfold colon_count, parse_index_arg. intros Hc.
  pose proof (split_top_length ":"%char arg 0 EmptyString) as Hlen.
  destruct (split_top ":"%char arg 0 EmptyString) as [|a [|b [|c [|d l]]]];
    simpl in Hlen; try lia. reflexivity.
Qed.

(** The arity error is the only error of an index argument. *)
Lemma parse_index_arg_error arg e :
  parse_index_arg arg = inl e -> e = SyntaxError slicing_arity_msg.
Proof.
  unfold parse_index_arg.
  destruct (split_top ":"%char arg 0 EmptyString) as [|a [|b [|c [|d l]]]];
    intros H; try (injection H as <-; reflexivity); try discriminate H.
  destruct (bool_decide (a = EmptyString) && bool_decide (b = EmptyString));
    discriminate H.
Qed.

Lemma parse_index_args_many_colons args :
  Exists (fun arg => 2 < colon_count arg) args ->
  parse_index_args args = inl (SyntaxError slicing_arity_msg).
Proof.
  induction 1 as [arg args Hc | arg args _ IH]; simpl.
  - rewrite (parse_index_arg_many_colons arg Hc). reflexivity.
  - destruct (parse_index_arg arg) as [e|a] eqn:Ha.
    + rewrite (parse_index_arg_error arg e Ha). reflexivity.
    + rewrite IH. reflexivity.
Qed.

(** C7. An index argument with more than 2 colons is a [SyntaxError] (too
    many arguments for slicing); so is every indexing operation one of
    whose arguments has more than 2 colons, and in particular
    [A[0:5:2:1]]: no value is produced. *)
Theorem slice_with_more_than_two_colons_fails :
  (forall arg, 2 < colon_count arg ->
     parse_index_arg arg = inl (SyntaxError slicing_arity_msg))
  /\ (forall var args_text,
        Exists (fun arg => 2 < colon_count arg)
               (split_top ","%char args_text 0 EmptyString) ->
        parse_indexing var args_text = inl (SyntaxError slicing_arity_msg))
  /\ parse_index_expr "A[0:5:2:1]" = inl (SyntaxError slicing_arity_msg).
Proof.
  split; [exact parse_index_arg_many_colons|]. split.
  - intros var args_text H. unfold parse_indexing.
    rewrite (parse_index_args_many_colons _ H). reflexivity.
  - vm_compute. reflexivity.
Qed.

Lemma slice_with_more_than_two_colons_fails_witness :
  parse_index_arg "0:5:2:1" = inl (SyntaxError slicing_arity_msg)
  /\ parse_indexing "A" "4,0:5:2:1" = inl (SyntaxError slicing_arity_msg).
Proof.
  destruct slice_with_more_than_two_colons_fails as (Harg & Hidx & _). split.
  - apply Harg. apply Nat.ltb_lt. vm_compute. reflexivity.
  - apply Hidx. apply Exists_cons_tl, Exists_cons_hd.
    apply Nat.ltb_lt. vm_compute. reflexivity.
Defined.

End Slices.

(** ** Line wrapping: what is lost, and when *)

Section LineWrappingLimits.
Import FortranGen.

Lemma length_str_concat_cons c chunks :
  String.length (PyStr.str_concat (c :: chunks))
  = String.length c + String.length (PyStr.str_concat chunks).
Proof. unfold PyStr.str_concat. simpl. apply length_str_append. Qed.

(** On a line of more than [2 * n - 1] characters every window of the loop
    lies inside the line, so the loop stops at a position of at most
    [2 * n - 2]: this is how far the chunks reach. *)
Lemma wrap_loop_reach fuel code_line : forall idx self self',
  2 * n - 1 < String.length code_line ->
  idx <= 2 * n - 2 ->
  wrap_loop fuel code_line idx self = Some (inr self') ->
  exists chunks tail,
    code self' = (code self ++ continuation_pieces chunks)%list
    /\ PyStr.str_drop idx code_line = PyStr.str_concat chunks ++ tail
    /\ idx + String.length (PyStr.str_concat chunks) <= 2 * n - 2.
Proof.
  assert (Hn : n = 60) by reflexivity.
  induction fuel as [|fuel IH]; intros idx self self' Hlen Hidx H.
  - simpl in H. destruct (Nat.ltb_spec idx n) as [Hlt|Hge]; [discriminate H|].
    injection H as <-. exists [], (PyStr.str_drop idx code_line). simpl.
    rewrite app_nil_r. repeat split. lia.
  - simpl in H. destruct (Nat.ltb_spec idx n) as [Hlt|Hge].
    + destruct (_find_first_op code_line idx (idx + n)) as [e|idx_new] eqn:Hf;
        [discriminate H|].
      assert (Hin : idx + n < String.length code_line) by lia.
      pose proof (find_first_op_inside _ _ _ _ Hin Hf) as Hnew.
      apply IH in H as (chunks & tail & Hcode & Hdrop & Hreach); [|exact Hlen|lia].
      set (chunk := PyStr.slice code_line idx (idx + idx_new)) in *.
      assert (Hchunk : String.length chunk = idx_new).
      { unfold chunk. rewrite length_slice. lia. }
      exists (chunk :: chunks), tail. repeat split.
      * rewrite Hcode. unfold add_linebreak. rewrite code_append_app.
        rewrite <- app_assoc. reflexivity.
      * rewrite (slice_chunk code_line idx idx_new). fold chunk. rewrite Hdrop.
        unfold PyStr.str_concat. simpl. rewrite str_append_assoc. reflexivity.
      * rewrite length_str_concat_cons, Hchunk. lia.
    + injection H as <-. exists [], (PyStr.str_drop idx code_line). simpl.
      rewrite app_nil_r. repeat split. lia.
Qed.

(** X1: A line of 120 characters or more is never appended in full: whenever
    [add_code_line] comes to an end on such a line, the pieces hold at most
    the first 118 characters of the line, and the rest of the line is
    dropped. *)
Theorem add_code_line_truncates (fuel : nat) (self self' : CodeGen)
    (code_str : string) :
  let code_line := code_line_of self code_str in
  2 * n - 1 < String.length code_line ->
  add_code_line fuel self code_str = Some (inr self') ->
  exists first chunks tail,
    code self' = (code self ++ first :: continuation_pieces chunks)%list
    /\ code_line = first ++ PyStr.str_concat chunks ++ tail
    /\ String.length (first ++ PyStr.str_concat chunks) <= 2 * n - 2
    /\ String.length code_line - (2 * n - 2) <= String.length tail
    /\ tail <> EmptyString.
Proof.
  assert (Hn : n = 60) by reflexivity.
  intros code_line Hlen H. unfold add_code_line in H. fold code_line in H.
  destruct (Nat.ltb_spec n (String.length code_line)); [|lia].
  destruct (_find_first_op code_line 0 n) as [e|idx] eqn:Hf; [discriminate H|].
  assert (Hidx : idx < n).
  { apply (find_first_op_inside code_line 0 n idx); [simpl; lia | exact Hf]. }
  apply wrap_loop_reach in H as (chunks & tail & Hcode & Hdrop & Hreach);
    [|exact Hlen|lia].
  set (first := PyStr.slice code_line 0 idx) in *.
  assert (Hfirst : String.length first = idx).
  { unfold first. rewrite length_slice. lia. }
  assert (Hline : code_line = first ++ PyStr.str_concat chunks ++ tail).
  { rewrite <- Hdrop. unfold first, PyStr.slice. rewrite Nat.sub_0_r. simpl.
    symmetry. apply str_take_drop. }
  assert (Hcov : String.length (first ++ PyStr.str_concat chunks) <= 2 * n - 2).
  { rewrite length_str_append, Hfirst. exact Hreach. }
  assert (Htail : String.length code_line - (2 * n - 2) <= String.length tail).
  { apply (f_equal String.length) in Hline.
    rewrite <- str_append_assoc, length_str_append in Hline. lia. }
  exists first, chunks, tail. repeat split.
  - rewrite Hcode. simpl. rewrite <- app_assoc. reflexivity.
  - exact Hline.
  - exact Hcov.
  - exact Htail.
  - intros ->. simpl in Htail. lia.
Qed.

End LineWrappingLimits.

(** ** Line wrapping: exceptions and non-termination *)

Section LineWrappingFailures.
Import FortranGen.

(** The characters of a text. *)
Lemma chars_str_rev_acc s acc :
  list_ascii_of_string (PyStr.str_rev_acc s acc)
  = (rev (list_ascii_of_string s) ++ list_ascii_of_string acc)%list.
Proof.
  revert acc. induction s as [|c s IH]; intros acc; simpl; [reflexivity|].
  rewrite IH. simpl. rewrite <- app_assoc. reflexivity.
Qed.

(** A one-character text is not found exactly when the character does not
    occur. *)
Lemma find_char_None c s :
  PyStr.find (String c EmptyString) s = None <-> ~ In c (list_ascii_of_string s).
Proof.
  induction s as [|a s IH]; cbn [PyStr.find String.prefix list_ascii_of_string In].
  - split; [tauto | reflexivity].
  - destruct (Ascii.ascii_dec c a) as [->|Hne].
    + destruct s; (split; [discriminate | intros H; exfalso; apply H; left; reflexivity]).
    + destruct (PyStr.find (String c EmptyString) s) as [i|] eqn:Hf; simpl.
      * split; [discriminate|]. intros H. exfalso.
        assert (Hin : ~ In c (list_ascii_of_string s)) by tauto.
        apply IH in Hin. discriminate Hin.
      * split; [|reflexivity]. intros _ [Heq|Hin]; [congruence|].
        apply (proj1 IH eq_refl). exact Hin.
Qed.

Lemma find_char_rev_None c s :
  PyStr.find (String c EmptyString) (PyStr.str_rev s) = None
  <-> PyStr.find (String c EmptyString) s = None.
Proof.
  rewrite !find_char_None. unfold PyStr.str_rev. rewrite chars_str_rev_acc.
  simpl. rewrite app_nil_r. rewrite <- in_rev. reflexivity.
Qed.

Lemma indices_at_start window :
  operators_at_start_only window
  <-> negb (bool_decide (omap (fun op => PyStr.find op window) wrap_ops = []))
      && (0 <? max_list (omap (fun op => PyStr.find op window) wrap_ops)) = false.
Proof.
  set (indices := omap (fun op => PyStr.find op window) wrap_ops).
  split.
  - intros Hops. destruct (Nat.ltb_spec 0 (max_list indices)) as [Hpos|Hzero];
      [|apply andb_false_r].
    exfalso. assert (Hne : indices <> []) by (intros Hnil; rewrite Hnil in Hpos; simpl in Hpos; lia).
    apply max_list_elem_of in Hne.
    apply list_elem_of_omap in Hne as (op & Hop & Hfind).
    specialize (Hops op _ Hop Hfind). lia.
  - intros Hb op i Hop Hfind.
    assert (Hin : i ∈ indices).
    { apply list_elem_of_omap. exists op. split; assumption. }
    apply max_list_elem_of_le in Hin.
    case_bool_decide as Hnil; simpl in Hb.
    + rewrite Hnil in Hin. simpl in Hin. lia.
    + apply Nat.ltb_ge in Hb. lia.
Qed.

(** [_find_first_op] raises nothing but [ValueError], and it raises it
    exactly when the window lies inside the text, holds no blank, and holds
    no operator whose first occurrence is beyond the start of the window. *)
Lemma find_first_op_raises code start stop e :
  _find_first_op code start stop = inl e
  <-> e = ValueError
      /\ stop < String.length code
      /\ operators_at_start_only (PyStr.slice code start stop)
      /\ PyStr.find " " (PyStr.slice code start stop) = None.
Proof.
  unfold _find_first_op.
  set (window := PyStr.slice code start stop).
  pose proof (indices_at_start window) as Hops.
  pose proof (find_char_rev_None " "%char window) as Hrev.
  destruct (Nat.ltb_spec stop (String.length code)) as [Hlt|Hge].
  - destruct (negb _ && _) eqn:Hb.
    + split; [discriminate|]. intros (_ & _ & Hat & _).
      apply Hops in Hat. discriminate Hat.
    + destruct (PyStr.find " " (PyStr.str_rev window)) as [j|] eqn:Hsp.
      * split; [discriminate|]. intros (_ & _ & _ & Hnone).
        apply Hrev in Hnone. discriminate Hnone.
      * split.
        -- intros H. injection H as <-. repeat split; [exact Hlt | | ].
           ++ apply Hops. reflexivity.
           ++ apply Hrev. reflexivity.
        -- intros (-> & _). reflexivity.
  - split; [discriminate|]. intros (_ & Hlt & _). lia.
Qed.

Lemma wrap_loop_raises fuel code_line : forall idx self e,
  wrap_loop fuel code_line idx self = Some (inl e) -> e = ValueError.
Proof.
  induction fuel as [|fuel IH]; intros idx self e H; simpl in H.
  - destruct (idx <? n); discriminate H.
  - destruct (idx <? n); [|discriminate H].
    destruct (_find_first_op code_line idx (idx + n)) as [e'|idx_new] eqn:Hf.
    + injection H as <-. apply find_first_op_raises in Hf. tauto.
    + apply IH in H. exact H.
Qed.

(** X2: [add_code_line] raises nothing but [ValueError], and only on a line of
    more than 60 characters. It does raise it, whatever follows, when the
    first 60 characters of such a line hold no blank and no operator beyond
    the first character. *)
Theorem add_code_line_raises (fuel : nat) (self : CodeGen) (code_str : string) :
  let code_line := code_line_of self code_str in
  (forall e, add_code_line fuel self code_str = Some (inl e) ->
     e = ValueError /\ n < String.length code_line)
  /\ (n < String.length code_line ->
      operators_at_start_only (PyStr.slice code_line 0 n) ->
      PyStr.find " " (PyStr.slice code_line 0 n) = None ->
      add_code_line fuel self code_str = Some (inl ValueError)).
Proof.
  intros code_line. unfold add_code_line. fold code_line. split.
  - intros e H. destruct (Nat.ltb_spec n (String.length code_line)) as [Hlong|Hshort];
      [|discriminate H].
    split; [|exact Hlong].
    destruct (_find_first_op code_line 0 n) as [e'|idx] eqn:Hf.
    + injection H as <-. apply find_first_op_raises in Hf. tauto.
    + apply wrap_loop_raises in H. exact H.
  - intros Hlong Hops Hblank.
    destruct (Nat.ltb_spec n (String.length code_line)); [|lia].
    assert (Hf : _find_first_op code_line 0 n = inl ValueError).
    { apply find_first_op_raises. auto. }
    rewrite Hf. reflexivity.
Qed.

Lemma str_rev_acc_app s acc :
  PyStr.str_rev_acc s acc = PyStr.str_rev s ++ acc.
Proof.
  unfold PyStr.str_rev. revert acc.
  induction s as [|c s IH]; intros acc; simpl; [reflexivity|].
  rewrite IH, (IH (String c EmptyString)), str_append_assoc. reflexivity.
Qed.

(** A blank behind a text without blank is found at the end of that text. *)
Lemma find_blank_after s :
  PyStr.find " " s = None -> PyStr.find " " (s ++ " ") = Some (String.length s).
Proof.
  induction s as [|c s IH]; intros Hnone; [reflexivity|].
  rewrite str_app_cons. cbn [PyStr.find String.prefix] in *.
  destruct (Ascii.ascii_dec " "%char c) as [->|Hne].
  - destruct s; discriminate Hnone.
  - destruct (PyStr.find " " s) as [i|]; [discriminate Hnone|].
    rewrite (IH eq_refl). reflexivity.
Qed.

(** A window that lies inside the line, begins with its only blank and
    holds no operator beyond its start makes [_find_first_op] answer 0. *)
Lemma find_first_op_zero code start stop rest :
  stop < String.length code ->
  PyStr.slice code start stop = String " "%char rest ->
  PyStr.find " " rest = None ->
  operators_at_start_only (PyStr.slice code start stop) ->
  _find_first_op code start stop = inr 0.
Proof.
  intros Hlt Hwin Hrest Hops. unfold _find_first_op.
  destruct (Nat.ltb_spec stop (String.length code)); [|lia].
  apply indices_at_start in Hops. rewrite Hops, Hwin.
  unfold PyStr.str_rev. cbn [PyStr.str_rev_acc]. rewrite str_rev_acc_app.
  rewrite find_blank_after by (apply find_char_rev_None; exact Hrest).
  rewrite length_str_rev. simpl. f_equal. lia.
Qed.

(** X3: [add_code_line] does not come to an end on every line: when the 60
    characters that follow the first break lie inside the line, begin with
    their only blank (as they do after a break at a blank) and hold no
    operator beyond their start, every round of the loop appends an empty
    continuation and stays where it is. *)
Theorem add_code_line_never_returns (self : CodeGen) (code_str : string)
    (idx : nat) (rest : string) :
  let code_line := code_line_of self code_str in
  n < String.length code_line ->
  _find_first_op code_line 0 n = inr idx ->
  idx + n < String.length code_line ->
  PyStr.slice code_line idx (idx + n) = String " "%char rest ->
  PyStr.find " " rest = None ->
  operators_at_start_only (PyStr.slice code_line idx (idx + n)) ->
  forall fuel, add_code_line fuel self code_str = None.
Proof.
  intros code_line Hlong Hf Hin Hwin Hrest Hops fuel.
  unfold add_code_line. fold code_line.
  destruct (Nat.ltb_spec n (String.length code_line)); [|lia].
  rewrite Hf. apply wrap_loop_stuck.
  - apply (find_first_op_inside code_line 0 n idx); [simpl; lia | exact Hf].
  - apply (find_first_op_zero code_line idx (idx + n) rest); assumption.
Qed.

End LineWrappingFailures.

Section LineWrappingWitnesses.
Import FortranGen.

Lemma add_code_line_truncates_witness :
  exists first chunks tail,
    [PyStr.newline;
     PyStr.tab ++ "y_delta(2) = (eta_exc + coupling_exc";
     PyStr.newline;
     continuation ++ "*rate_exc*time_constant_exc - coupling_inh*rate_inh "]
    = (code indented_gen ++ first :: continuation_pieces chunks)%list
    /\ code_line_of indented_gen very_long_equation
       = first ++ PyStr.str_concat chunks ++ tail
    /\ String.length (first ++ PyStr.str_concat chunks) <= 2 * n - 2
    /\ String.length (code_line_of indented_gen very_long_equation) - (2 * n - 2)
       <= String.length tail
    /\ tail <> EmptyString.
Proof.
  apply (add_code_line_truncates 2 indented_gen
           {| code := [PyStr.newline;
                       PyStr.tab ++ "y_delta(2) = (eta_exc + coupling_exc";
                       PyStr.newline;
                       continuation
                       ++ "*rate_exc*time_constant_exc - coupling_inh*rate_inh "];
              lvl := 1 |}
           very_long_equation).
  - apply Nat.ltb_lt. vm_compute. reflexivity.
  - vm_compute. reflexivity.
Defined.

Lemma add_code_line_raises_witness :
  add_code_line 1 new_gen dense_assignment = Some (inl ValueError)
  /\ (ValueError = ValueError
      /\ n < String.length (code_line_of new_gen dense_assignment)).
Proof.
  split.
  - apply (proj2 (add_code_line_raises 1 new_gen dense_assignment)).
    + apply Nat.ltb_lt. vm_compute. reflexivity.
    + apply indices_at_start. vm_compute. reflexivity.
    + vm_compute. reflexivity.
  - apply (proj1 (add_code_line_raises 1 new_gen dense_assignment) ValueError).
    vm_compute. reflexivity.
Defined.

Lemma add_code_line_never_returns_witness :
  add_code_line 1000 new_gen long_call = None.
Proof.
  refine (add_code_line_never_returns new_gen long_call 3
            "a_very_long_function_name_for_the_right_hand_side_of_the_eq"
            _ _ _ _ _ _ 1000).
  - apply Nat.ltb_lt. vm_compute. reflexivity.
  - vm_compute. reflexivity.
  - apply Nat.ltb_lt. vm_compute. reflexivity.
  - vm_compute. reflexivity.
  - vm_compute. reflexivity.
  - apply indices_at_start. vm_compute. reflexivity.
Defined.

End LineWrappingWitnesses.

(** ** The code emitted by [compile]: constants *)

Section ConstantsWriteBack.
Import FortranGen FortranCompile.
Local Open Scope list_scope.

Variable fuel : nat.

Lemma bind_inr {A B : Type} (m : M A) (k : A -> M B) (b : B) :
  bind m k = Some (inr b) -> exists a, m = Some (inr a) /\ k a = Some (inr b).
Proof.
  destruct m as [[e|a]|]; simpl; intros H; try discriminate H.
  exists a. split; [reflexivity | exact H].
Qed.

(** The loop appends the declared names to [updates] and their positions,
    counted from [i], to [indices]. *)
Lemma declare_constants_loop_spec params var_map : forall st st',
  declare_constants_loop fuel params var_map st = Some (inr st') ->
  cs_updates st' = cs_updates st ++ (declared_constants params var_map).*1
  /\ cs_indices st'
     = cs_indices st ++ seq (cs_i st) (length (declared_constants params var_map)).
Proof.
  induction var_map as [|[key [vtype idx]] var_map IH]; intros st st' H; simpl in *.
  - injection H as <-. rewrite !app_nil_r. auto.
  - destruct (params !! idx) as [v|] eqn:Hp.
    + case_bool_decide as Hc; simpl; [|apply IH; exact H].
      case_bool_decide as Hy; simpl; [apply IH; exact H|].
      apply bind_inr in H as (gen1 & _ & H).
      apply IH in H as [Hu Hi]. simpl in *.
      rewrite Hu, Hi, <- !app_assoc. simpl.
      replace (cs_i st + 1) with (S (cs_i st)) by lia. auto.
    + case_bool_decide as Hc; [discriminate H | apply IH; exact H].
Qed.

Lemma find_arg_index_spec lhs updates k :
  find_arg_index lhs updates = Some k ->
  updates !! k = Some lhs /\ forall k', k' < k -> updates !! k' <> Some lhs.
Proof.
  revert k. induction updates as [|arg updates IH]; intros k H; simpl in H;
    [discriminate H|].
  case_bool_decide as Heq.
  - injection H as <-. split; [simpl; congruence | intros k' Hk; lia].
  - destruct (find_arg_index lhs updates) as [j|]; [|discriminate H].
    injection H as <-. destruct (IH j eq_refl) as [Hj Hfirst]. split; [exact Hj|].
    intros [|k'] Hk; simpl; [congruence | apply Hfirst; lia].
Qed.

(** With positions for [indices], the loop of the block "add equations"
    appends to [arg_updates] the entry of each statement, in order. *)
Lemma add_equations_loop_spec (updates : list string) values :
  forall st st',
  add_equations_loop fuel updates (seq 0 (length updates)) values st
  = Some (inr st') ->
  st'.2 = st.2 ++ omap (write_back updates) values.
Proof.
  induction values as [|value values IH]; intros st st' H; simpl in *.
  - injection H as <-. rewrite app_nil_r. reflexivity.
  - apply bind_inr in H as (st1 & H1 & H).
    apply IH in H. rewrite H. clear H IH.
    destruct st as [gen arg_updates]. unfold add_equation in H1.
    unfold write_back. simpl.
    destruct (find_arg_index (lhs_of value) updates) as [k|] eqn:Hk.
    + destruct (find_arg_index_spec _ _ _ Hk) as [Hupd _].
      rewrite Hupd in H1.
      assert (Hseq : seq 0 (length updates) !! k = Some k).
      { apply lookup_seq. split; [reflexivity|].
        apply lookup_lt_Some in Hupd. exact Hupd. }
      rewrite Hseq in H1.
      apply bind_inr in H1 as (gen1 & _ & H1). injection H1 as <-.
      simpl. rewrite <- app_assoc. reflexivity.
    + apply bind_inr in H1 as (gen1 & _ & H1). injection H1 as <-.
      reflexivity.
Qed.

(** The statements that the loop appends are those that read the declared
    constants. *)
Lemma declare_constants_loop_code params var_map : forall st st',
  declare_constants_loop fuel params var_map st = Some (inr st') ->
  read_all fuel (declared_constants params var_map) (cs_gen st)
  = Some (inr (cs_gen st')).
Proof.
  induction var_map as [|[key [vtype idx]] var_map IH]; intros st st' H; simpl in *.
  - injection H as <-. reflexivity.
  - destruct (params !! idx) as [v|] eqn:Hp.
    + case_bool_decide as Hc; simpl; [|apply IH; exact H].
      case_bool_decide as Hy; simpl; [apply IH; exact H|].
      unfold read_str.
      destruct (add_code_line fuel (cs_gen st)
                  (var_short_name v ++ " = args(" ++ pretty (idx + 1) ++ ")"))
        as [[e|gen1]|]; try discriminate H.
      simpl in *. apply IH in H. exact H.
    + case_bool_decide as Hc; [discriminate H | apply IH; exact H].
Qed.

(** Every declared constant belongs to an entry of [var_map] of the type
    [constant], and is read from the index of that entry plus 1. *)
Lemma declared_constants_entries params var_map :
  Forall (fun d =>
            exists key idx v,
              (key, ("constant", idx)) ∈ var_map
              /\ params !! idx = Some v
              /\ var_short_name v <> "y_delta"
              /\ d = (var_short_name v, idx + 1))
         (declared_constants params var_map).
Proof.
  induction var_map as [|[key [vtype idx]] var_map IH]; simpl; [constructor|].
  assert (IH' : Forall (fun d =>
            exists key0 idx0 v,
              (key0, ("constant", idx0)) ∈ (key, (vtype, idx)) :: var_map
              /\ params !! idx0 = Some v
              /\ var_short_name v <> "y_delta"
              /\ d = (var_short_name v, idx0 + 1))
         (declared_constants params var_map)).
  { eapply Forall_impl; [exact IH|]. intros d (key0 & idx0 & v & Hin & Hrest).
    exists key0, idx0, v. split; [right; exact Hin | exact Hrest]. }
  destruct (params !! idx) as [v|] eqn:Hp; [|exact IH'].
  case_bool_decide as Hc; simpl; [|exact IH'].
  case_bool_decide as Hy; simpl; [exact IH'|].
  constructor; [|exact IH'].
  exists key, idx, v. subst vtype. split; [left|]. auto.
Qed.

(** X7: The block "declare constants" reads the constant of the entry [idx] of
    [var_map] from [args(idx + 1)]: the code that it appends is its comment
    line and then, for every entry of the type [constant] whose variable is
    not [y_delta], the statement [name = args(idx + 1)], each on a line of
    its own. It records for the constant the position that it has among
    the declared constants, counted from 0. The block "add equations" uses
    that position for the write-back: a statement whose left-hand side is a
    declared constant gets the entry [(name, k)], [k] being the first
    position of the name among the declared constants, and the write-back
    statement is [args(k) = name]; no other statement gets an entry. So the
    first declared constant, read from [args(idx + 1)], is written back to
    [args(0)]. *)
Theorem constants_written_back_by_position
    (params : list var) (var_map : list (string * (string * nat)))
    (gen : CodeGen) (st : constants_state) :
  declare_constants fuel params var_map gen = Some (inr st) ->
  let declared := declared_constants params var_map in
  cs_updates st = declared.*1
  /\ cs_indices st = seq 0 (length declared)
  /\ Forall (fun d => 0 < d.2) declared
  /\ Forall (fun d =>
               exists key idx v,
                 (key, ("constant", idx)) ∈ var_map
                 /\ params !! idx = Some v
                 /\ var_short_name v <> "y_delta"
                 /\ d = (var_short_name v, idx + 1)) declared
  /\ (exists gen1 gen2,
        add_code_line fuel gen "! declare constants" = Some (inr gen1)
        /\ read_all fuel declared (add_linebreak gen1) = Some (inr gen2)
        /\ cs_gen st = add_linebreak gen2)
  /\ forall layers gen1 gen2 arg_updates,
       add_equations fuel (cs_updates st) (cs_indices st) layers gen1
       = Some (inr (gen2, arg_updates)) ->
       arg_updates = omap (write_back declared.*1) (concat layers)
       /\ Forall (fun entry =>
                    exists read_idx,
                      declared !! entry.2 = Some (entry.1, read_idx)
                      /\ 0 < read_idx
                      /\ (forall k', k' < entry.2 -> declared.*1 !! k' <> Some entry.1)
                      /\ update_str entry.1 entry.2
                         = ("args(" ++ pretty entry.2 ++ ") = " ++ entry.1)%string)
                 arg_updates.
Proof.
  intros H declared. unfold declare_constants in H.
  apply bind_inr in H as (gen0 & Hgen0 & H). apply bind_inr in H as (st0 & H & Hst).
  injection Hst as <-. pose proof (declare_constants_loop_code _ _ _ _ H) as Hcode.
  apply declare_constants_loop_spec in H as [Hu Hi].
  simpl in *. fold declared in Hu, Hi, Hcode.
  assert (Hpos : Forall (fun d => 0 < d.2) declared).
  { unfold declared. clear. induction var_map as [|[key [vtype idx]] vm IH]; simpl;
      [constructor|].
    destruct (params !! idx) as [v|]; [|exact IH].
    destruct (_ && _); [|exact IH]. constructor; [simpl; lia | exact IH]. }
  split; [exact Hu|]. split; [exact Hi|]. split; [exact Hpos|].
  split; [apply declared_constants_entries|].
  split; [exists gen0, (cs_gen st0); auto|].
  intros layers gen1 gen2 arg_updates Heq. rewrite Hu, Hi in Heq.
  replace (length declared) with (length declared.*1) in Heq by apply length_fmap.
  unfold add_equations in Heq.
  apply bind_inr in Heq as (gen3 & _ & Heq). apply bind_inr in Heq as (st1 & Heq & Hst).
  injection Hst as _ <-. apply add_equations_loop_spec in Heq. simpl in Heq.
  split; [exact Heq|]. rewrite Heq.
  apply Forall_forall. intros [name k] Hin. simpl.
  apply list_elem_of_omap in Hin as (value & _ & Hwb). unfold write_back in Hwb.
  destruct (find_arg_index (lhs_of value) declared.*1) as [k0|] eqn:Hk;
    [|discriminate Hwb].
  injection Hwb as <- <-. destruct (find_arg_index_spec _ _ _ Hk) as [Hupd Hfirst].
  rewrite list_lookup_fmap in Hupd.
  destruct (declared !! k0) as [[name read_idx]|] eqn:Hd; [|discriminate Hupd].
  simpl in Hupd. injection Hupd as ->.
  exists read_idx. split; [reflexivity|]. split.
  - apply (proj1 (Forall_forall _ _) Hpos (lhs_of value, read_idx)).
    apply list_elem_of_lookup. exists k0. exact Hd.
  - split; [exact Hfirst | reflexivity].
Qed.

End ConstantsWriteBack.

Section ConstantsWriteBackWitness.
Import FortranGen FortranCompile.

Lemma constants_written_back_by_position_witness :
  cs_updates example_constants_state = ["tau"; "k"]
  /\ cs_indices example_constants_state = [0; 1]
  /\ (exists gen1 gen2,
        add_code_line 2 indented_gen "! declare constants" = Some (inr gen1)
        /\ read_all 2 [("tau", 1); ("k", 2)] (add_linebreak gen1) = Some (inr gen2)
        /\ cs_gen example_constants_state = add_linebreak gen2)
  /\ code (cs_gen example_constants_state)
     = [PyStr.newline; PyStr.tab ++ "! declare constants"; PyStr.newline;
        PyStr.tab ++ "tau = args(1)"; PyStr.newline;
        PyStr.tab ++ "k = args(2)"; PyStr.newline; PyStr.newline]
  /\ example_equations_outcome.2 = [("tau", 0)]
  /\ Forall (fun entry =>
               exists read_idx,
                 declared_constants example_params example_var_map !! entry.2
                 = Some (entry.1, read_idx)
                 /\ 0 < read_idx
                 /\ (forall k', k' < entry.2 ->
                       (declared_constants example_params example_var_map).*1 !! k'
                       <> Some entry.1)
                 /\ update_str entry.1 entry.2
                    = "args(" ++ pretty entry.2 ++ ") = " ++ entry.1)
            example_equations_outcome.2.
Proof.
  destruct (constants_written_back_by_position 2 example_params example_var_map
              indented_gen example_constants_state)
    as (Hu & Hi & _ & _ & Hcode & Heq); [vm_compute; reflexivity|].
  destruct (Heq example_layers (cs_gen example_constants_state)
              example_equations_outcome.1 example_equations_outcome.2)
    as (Hall & Hforall); [vm_compute; reflexivity|].
  split; [exact Hu|]. split; [exact Hi|]. split; [exact Hcode|].
  split; [vm_compute; reflexivity|].
  split; [reflexivity | exact Hforall].
Defined.

End ConstantsWriteBackWitness.

(** ** The code emitted by [compile]: type declarations *)

Section TypeDeclarations.
Import FortranGen FortranCompile.
Local Open Scope list_scope.

Variable get_var : string -> exn + var.
Variable fuel : nat.

(** A short line is appended as it is. *)
Lemma add_code_line_short gen s :
  String.length (code_line_of gen s) <= n ->
  add_code_line fuel gen s = Some (inr (code_append gen (code_line_of gen s))).
Proof.
  intros Hshort. unfold add_code_line.
  destruct (Nat.ltb_spec n (String.length (code_line_of gen s))); [lia | reflexivity].
Qed.

(** Behind a piece that is no line break the line is not indented. *)
Lemma code_line_of_after gen piece s :
  last (code gen) = Some piece -> piece <> PyStr.newline -> code_line_of gen s = s.
Proof.
  intros Hlast Hne. unfold code_line_of. rewrite Hlast.
  case_bool_decide; [contradiction | reflexivity].
Qed.

Lemma name_piece_no_newline (name : string) : (name ++ ",")%string <> PyStr.newline.
Proof.
  destruct name as [|c [|c' name]]; intros H; try discriminate H.
Qed.

Lemma chars_append (a b : string) :
  list_ascii_of_string (a ++ b)%string
  = list_ascii_of_string a ++ list_ascii_of_string b.
Proof.
  induction a as [|c a IH]; [reflexivity|].
  rewrite str_app_cons. simpl. rewrite IH. reflexivity.
Qed.

Lemma name_piece_has_comma (name : string) :
  PyStr.contains "," (name ++ ",")%string = true.
Proof.
  unfold PyStr.contains.
  destruct (PyStr.find "," (name ++ ",")%string) eqn:Hf; [reflexivity|].
  apply find_char_None in Hf. exfalso. apply Hf.
  rewrite chars_append. apply in_or_app. right. left. reflexivity.
Qed.

Lemma str_take_length_app (a b : string) :
  PyStr.str_take (String.length a) (a ++ b)%string = a.
Proof.
  induction a as [|c a IH]; [destruct b; reflexivity|].
  rewrite str_app_cons. simpl. rewrite IH. reflexivity.
Qed.

Lemma drop_last_char_name_piece (name : string) :
  drop_last_char (name ++ ",")%string = name.
Proof.
  unfold drop_last_char. rewrite length_str_append. simpl.
  replace (String.length name + 1 - 1) with (String.length name) by lia.
  apply str_take_length_app.
Qed.

(** The loop over the keys appends the selected names, each followed by a
    comma. *)
Lemma add_names_spec selected keys : forall gen piece,
  Forall (fun key => exists v, get_var key = inr v) keys ->
  Forall (fun name => String.length name < n) (selected_names get_var selected keys) ->
  last (code gen) = Some piece -> piece <> PyStr.newline ->
  add_names get_var fuel selected keys gen
  = Some (inr {| code := code gen
                         ++ map (fun name => (name ++ ",")%string)
                              (selected_names get_var selected keys);
                 lvl := lvl gen |}).
Proof.
  induction keys as [|key keys IH]; intros gen piece Hget Hshort Hlast Hne.
  - simpl. rewrite app_nil_r. destruct gen. reflexivity.
  - apply Forall_cons in Hget as [[v Hv] Hget]. unfold selected_names in *.
    cbn [add_names omap list_omap] in *. rewrite Hv in *.
    destruct (selected v).
    + apply Forall_cons in Hshort as [Hname Hshort].
      assert (Hline : code_line_of gen (var_short_name v ++ ",")%string
                      = (var_short_name v ++ ",")%string).
      { apply (code_line_of_after gen piece); assumption. }
      rewrite add_code_line_short
        by (rewrite Hline, length_str_append; simpl; lia).
      rewrite Hline. cbn [bind].
      rewrite (IH (code_append gen (var_short_name v ++ ",")%string)
                 (var_short_name v ++ ",")%string Hget Hshort).
      * simpl. rewrite <- app_assoc. reflexivity.
      * simpl. apply last_snoc.
      * apply name_piece_no_newline.
    + apply (IH gen piece); assumption.
Qed.

(** Behind the names, the removal of the last comma leaves the names
    separated by commas. *)
Lemma strip_last_comma_names names : forall base k,
  names <> [] ->
  strip_last_comma
    {| code := base ++ map (fun name => (name ++ ",")%string) names; lvl := k |}
  = Some (inr {| code := base ++ comma_separated names; lvl := k |}).
Proof.
  induction names as [|name names IH]; intros base k Hne; [congruence|].
  destruct names as [|name' names].
  - unfold strip_last_comma. simpl. rewrite last_snoc, name_piece_has_comma.
    rewrite removelast_last, drop_last_char_name_piece. reflexivity.
  - specialize (IH (base ++ [(name ++ ",")%string]) k ltac:(discriminate)).
    rewrite <- !app_assoc in IH. exact IH.
Qed.

Lemma str_append_nil_r (a : string) : (a ++ EmptyString)%string = a.
Proof. induction a as [|c a IH]; [reflexivity|]. rewrite str_app_cons, IH. reflexivity. Qed.

Lemma str_concat_comma_separated names :
  names <> [] ->
  foldr String.append EmptyString (comma_separated names) = PyStr.join "," names.
Proof.
  induction names as [|name names IH]; intros Hne; [congruence|].
  destruct names as [|name' names].
  - simpl. apply str_append_nil_r.
  - change (comma_separated (name :: name' :: names))
      with ((name ++ ",")%string :: comma_separated (name' :: names)).
    change (foldr String.append EmptyString
              ((name ++ ",")%string :: comma_separated (name' :: names)))
      with ((name ++ ",") ++ foldr String.append EmptyString
                               (comma_separated (name' :: names)))%string.
    rewrite IH by discriminate.
    unfold PyStr.join. cbn [String.concat]. rewrite str_append_assoc. reflexivity.
Qed.

(** X8: A type declaration of [compile]. When the keyword line is short, holds
    no comma and is no line break, and every listed name has fewer than 60
    characters, the declaration is appended as the keyword line followed by
    the names, separated by commas, with no comma behind the last name,
    piece after piece of one line, whatever the number of names; a line
    break follows. When no variable is selected the keyword is removed again, and
    only the line break is appended. *)
Theorem declare_types_pieces (keyword : string) (selected : var -> bool)
    (keys : list string) (gen : CodeGen) :
  let keyword_line := code_line_of gen keyword in
  let names := selected_names get_var selected keys in
  Forall (fun key => exists v, get_var key = inr v) keys ->
  String.length keyword_line <= n ->
  PyStr.contains "," keyword_line = false ->
  keyword_line <> PyStr.newline ->
  Forall (fun name => String.length name < n) names ->
  declare_types get_var fuel keyword selected keys gen
  = Some (inr {| code := code gen ++ declaration_pieces keyword_line names
                         ++ [PyStr.newline];
                 lvl := lvl gen |})
  /\ (names <> [] ->
      PyStr.str_concat (declaration_pieces keyword_line names)
      = (keyword_line ++ PyStr.join "," names)%string).
Proof.
  intros keyword_line names Hget Hkw Hcomma Hnl Hshort. split.
  - unfold declare_types. rewrite add_code_line_short by exact Hkw.
    fold keyword_line. cbn [bind].
    rewrite (add_names_spec selected keys (code_append gen keyword_line) keyword_line
               Hget Hshort (last_snoc _ _) Hnl).
    fold names. cbn [bind code_append code lvl].
    destruct names as [|name names'] eqn:Hnames.
    + simpl. rewrite app_nil_r. unfold strip_last_comma. simpl.
      rewrite last_snoc, Hcomma, removelast_last. reflexivity.
    + rewrite <- Hnames. rewrite strip_last_comma_names by (rewrite Hnames; discriminate).
      cbn [bind]. unfold ret, add_linebreak, code_append. simpl.
      rewrite Hnames. simpl. rewrite <- !app_assoc. reflexivity.
  - intros Hne. unfold declaration_pieces.
    destruct names as [|name names']; [congruence|].
    unfold PyStr.str_concat. cbn [foldr]. f_equal.
    apply str_concat_comma_separated. discriminate.
Qed.

End TypeDeclarations.

Section TypeDeclarationsWitness.
Import FortranGen FortranCompile.

Lemma declare_types_pieces_witness :
  declare_types example_get_var 1 "double precision " is_float_var example_keys
    indented_gen
  = Some (inr {| code := [PyStr.newline; PyStr.tab ++ "double precision ";
                          "tau,"; "r,"; "k"; PyStr.newline];
                 lvl := 1 |})
  /\ (selected_names example_get_var is_float_var example_keys <> [] ->
      PyStr.str_concat
        (declaration_pieces (code_line_of indented_gen "double precision ")
           (selected_names example_get_var is_float_var example_keys))
      = code_line_of indented_gen "double precision "
        ++ PyStr.join "," (selected_names example_get_var is_float_var example_keys)).
Proof.
  apply (declare_types_pieces example_get_var 1 "double precision " is_float_var
           example_keys indented_gen).
  - repeat (apply Forall_cons; split; [eexists; vm_compute; reflexivity|]).
    apply Forall_nil. exact I.
  - apply Nat.leb_le. vm_compute. reflexivity.
  - vm_compute. reflexivity.
  - vm_compute. discriminate.
  - vm_compute. repeat constructor.
Defined.

End TypeDeclarationsWitness.

(** ** The code emitted by [compile]: repeated write-backs *)

Section RepeatedWriteBacks.
Import FortranGen FortranCompile.
Local Open Scope list_scope.

Variable fuel : nat.

(** What [add_code_line] appends when it comes to an end: an initial part
    of the line, and continuations. *)
Lemma add_code_line_appended gen s gen' :
  add_code_line fuel gen s = Some (inr gen') ->
  exists k chunks,
    code gen' = code gen ++ PyStr.str_take k (code_line_of gen s)
                            :: continuation_pieces chunks
    /\ lvl gen' = lvl gen.
Proof.
  unfold add_code_line. set (code_line := code_line_of gen s).
  destruct (Nat.ltb_spec n (String.length code_line)) as [Hlong|Hshort]; intros H.
  - destruct (_find_first_op code_line 0 n) as [e|idx]; [discriminate H|].
    apply wrap_loop_pieces in H as (chunks & tail & Hcode & Hlvl & _).
    exists idx, chunks. rewrite Hcode, Hlvl. simpl. rewrite <- app_assoc.
    unfold PyStr.slice. rewrite Nat.sub_0_r. simpl. auto.
  - injection H as <-. exists (String.length code_line), []. simpl.
    rewrite str_take_all by lia. auto.
Qed.

Lemma take_no_write_back_text c rest k :
  c <> " "%char -> no_write_back_text (PyStr.str_take k (String c rest)).
Proof.
  intros Hc. unfold no_write_back_text.
  destruct k; cbn [PyStr.str_take String.prefix]; [reflexivity|].
  destruct (Ascii.ascii_dec " " c) as [Heq|_]; [congruence | reflexivity].
Qed.

Lemma continuation_pieces_no_write_back_text chunks :
  Forall no_write_back_text (continuation_pieces chunks).
Proof.
  induction chunks as [|c chunks IH]; [constructor|].
  simpl. constructor; [reflexivity|]. constructor; [reflexivity | exact IH].
Qed.

(** A write-back statement, indented or not, begins with a tabulator or
    with [a]. *)
Lemma update_line_start gen upd idx :
  exists c rest,
    code_line_of gen (update_str upd idx) = String c rest /\ c <> " "%char.
Proof.
  assert (Hs : exists rest, update_str upd idx = String "a"%char rest).
  { eexists. unfold update_str. reflexivity. }
  destruct Hs as [rest Hs]. unfold code_line_of.
  destruct (last (code gen)) as [piece|];
    [|exists "a"%char, rest; split; [exact Hs | discriminate]].
  case_bool_decide; [|exists "a"%char, rest; split; [exact Hs | discriminate]].
  destruct (lvl gen) as [|k].
  - exists "a"%char, rest. split; [exact Hs | discriminate].
  - eexists _, _. split; [reflexivity | discriminate].
Qed.

Lemma write_back_text_not_in upd idx pieces :
  Forall no_write_back_text pieces ->
  bool_decide (("    " ++ update_str upd idx)%string ∈ pieces) = false.
Proof.
  intros Hall. apply bool_decide_eq_false_2. intros Hin.
  apply (proj1 (Forall_forall _ _) Hall) in Hin.
  unfold no_write_back_text, update_str in Hin. discriminate Hin.
Qed.

Lemma update_parameters_loop_all arg_updates : forall gen,
  Forall no_write_back_text (code gen) ->
  update_parameters_loop fuel arg_updates gen = write_back_all fuel arg_updates gen.
Proof.
  induction arg_updates as [|[upd idx] arg_updates IH]; intros gen Hall;
    [reflexivity|].
  cbn [update_parameters_loop write_back_all].
  rewrite write_back_text_not_in by exact Hall.
  destruct (add_code_line fuel gen (update_str upd idx)) as [[e|gen1]|] eqn:Hadd;
    try reflexivity.
  cbn [bind]. apply IH.
  apply add_code_line_appended in Hadd as (k & chunks & Hcode & _).
  unfold add_linebreak, code_append. simpl. rewrite Hcode.
  destruct (update_line_start gen upd idx) as (c & rest & -> & Hc).
  rewrite !Forall_app. split; [split; [exact Hall|]|].
  - constructor; [apply take_no_write_back_text; exact Hc|].
    apply continuation_pieces_no_write_back_text.
  - constructor; [reflexivity | constructor].
Qed.

(** X9: The block "update parameters where necessary" looks for its statement
    behind four blanks among the pieces of code, but no statement is
    appended behind four blanks. So when no earlier piece begins with four
    blanks and [args], the test never finds the statement, and every entry
    of [arg_updates] gets its write-back statement: a constant that several
    operations assign is written back several times. *)
Theorem update_parameters_writes_all (arg_updates : list (string * nat))
    (gen : CodeGen) :
  Forall no_write_back_text (code gen) ->
  update_parameters fuel arg_updates gen
  = bind (add_code_line fuel gen "! update system parameters")
         (fun gen1 => write_back_all fuel arg_updates (add_linebreak gen1)).
Proof.
  intros Hall. unfold update_parameters.
  destruct (add_code_line fuel gen "! update system parameters")
    as [[e|gen1]|] eqn:Hadd; try reflexivity.
  cbn [bind]. apply update_parameters_loop_all.
  apply add_code_line_appended in Hadd as (k & chunks & Hcode & _).
  unfold add_linebreak, code_append. simpl. rewrite Hcode.
  assert (Hstart : exists c rest,
             code_line_of gen "! update system parameters" = String c rest
             /\ c <> " "%char).
  { unfold code_line_of. destruct (last (code gen)) as [piece|];
      [|eexists _, _; split; [reflexivity | discriminate]].
    case_bool_decide; [|eexists _, _; split; [reflexivity | discriminate]].
    destruct (lvl gen); eexists _, _; (split; [reflexivity | discriminate]). }
  destruct Hstart as (c & rest & -> & Hc).
  rewrite !Forall_app. split; [split; [exact Hall|]|].
  - constructor; [apply take_no_write_back_text; exact Hc|].
    apply continuation_pieces_no_write_back_text.
  - constructor; [reflexivity | constructor].
Qed.

End RepeatedWriteBacks.

Section RepeatedWriteBacksWitness.
Import FortranGen FortranCompile.

Lemma update_parameters_writes_all_witness :
  update_parameters 1 [("tau", 0); ("tau", 0)] example_equations_outcome.1
  = bind (add_code_line 1 example_equations_outcome.1 "! update system parameters")
         (fun gen1 => write_back_all 1 [("tau", 0); ("tau", 0)] (add_linebreak gen1)).
Proof.
  apply (update_parameters_writes_all 1 [("tau", 0); ("tau", 0)]
           example_equations_outcome.1).
  vm_compute. repeat constructor.
Defined.

End RepeatedWriteBacksWitness.

(** ** The order of the operands of the shape check *)

Section CompareShapesOrder.
Import FortranBackend.

(** X4: [_compare_shapes] accepts every operand with itself, and does not
    depend on the order of two operands that both carry a shape or both
    carry none. With one shapeless operand the order matters: the two
    orders disagree exactly when the shape of the other operand sums to
    more than 0, and then the pair is accepted with the shapeless operand
    first and rejected with it second. *)
Theorem compare_shapes_order (op1 op2 : pyobj) (index index' : bool) :
  _compare_shapes op1 op1 index = true
  /\ (_compare_shapes op1 op2 index <> _compare_shapes op2 op1 index'
      <-> (shape op2 = None /\ shape_sum_positive op1)
          \/ (shape op1 = None /\ shape_sum_positive op2))
  /\ (shape op1 = None -> shape_sum_positive op2 ->
      _compare_shapes op1 op2 index = true
      /\ _compare_shapes op2 op1 index' = false).
Proof.
  unfold _compare_shapes, shape_sum_positive. split; [|split].
  - destruct (shape op1) as [s1|]; [|reflexivity].
    rewrite bool_decide_eq_true_2 by reflexivity. reflexivity.
  - destruct (shape op1) as [s1|], (shape op2) as [s2|].
    + split.
      * intros Hne. exfalso. apply Hne.
        destruct (decide (s1 = s2)) as [->|Hs]; [reflexivity|].
        rewrite !bool_decide_eq_false_2 by congruence.
        rewrite (andb_comm (1 <? length s1)), (andb_comm (length s1 =? 0)).
        reflexivity.
      * intros [[H _]|[H _]]; discriminate H.
    + destruct (Nat.ltb_spec 0 (sum_list s1)) as [Hpos|Hzero].
      * split; [intros _; left; eauto | discriminate].
      * split; [congruence|].
        intros [[_ (sh & Hsh & Hp)]|[H _]]; [|discriminate H].
        injection Hsh as <-. lia.
    + destruct (Nat.ltb_spec 0 (sum_list s2)) as [Hpos|Hzero].
      * split; [intros _; right; eauto | discriminate].
      * split; [congruence|].
        intros [[H _]|[_ (sh & Hsh & Hp)]]; [discriminate H|].
        injection Hsh as <-. lia.
    + split; [congruence|]. intros [[_ (sh & Hsh & _)]|[_ (sh & Hsh & _)]];
        discriminate Hsh.
  - intros Hnone (sh & Hsh & Hpos). rewrite Hnone, Hsh.
    destruct (Nat.ltb_spec 0 (sum_list sh)); [auto | lia].
Qed.

Lemma compare_shapes_order_witness :
  _compare_shapes shapeless_scalar (array_of_shape [3]) false = true
  /\ _compare_shapes (array_of_shape [3]) shapeless_scalar false = false.
Proof.
  apply (proj2 (proj2 (compare_shapes_order shapeless_scalar (array_of_shape [3])
                         false false)) eq_refl).
  exists [3]. split; [reflexivity|]. simpl. apply Nat.lt_0_succ.
Defined.

End CompareShapesOrder.

(** ** The nodes that [_create_op] creates *)

Section CreateOpNodes.
Import FortranBackend.

Context {St : Type}.
Variable add_var : string -> string -> pyobj -> St -> exn + (pyobj * St).
Variable _process_update_args_old :
  pyobj -> pyobj -> pyobj -> St -> exn + ((pyobj * pyobj * pyobj) * St).

Lemma cast_args_find (dts : list string) (args : list pyobj) :
  cast_args dts args
  = match dts with
    | [] => inr args
    | _ :: _ =>
        match args !! 1 with
        | None => inl IndexError
        | Some a1 =>
            match List.find (fun dtype => PyStr.contains dtype (str_repr a1)) dts with
            | Some dtype => inr (<[1 := py_str ("np." ++ dtype)]> args)
            | None => inr args
            end
        end
    end.
Proof.
  induction dts as [|d dts IH]; [reflexivity|].
  cbn [cast_args List.find]. destruct (args !! 1) as [a1|] eqn:Ha; [|reflexivity].
  destruct (PyStr.contains d (str_repr a1)); [reflexivity|].
  rewrite IH. destruct dts; reflexivity.
Qed.

(** X5: The loop of the [cast] branch takes the first data type whose name
    occurs in the text of the second argument and puts [np.<dtype>] in the
    place of that argument, leaving the other arguments alone; without such
    a data type the arguments stay as they are. With data types to try and
    fewer than two arguments it raises [IndexError]. *)
Theorem cast_args_first_match (dts : list string) (args : list pyobj) :
  cast_args dts args
  = match dts with
    | [] => inr args
    | _ :: _ =>
        match args !! 1 with
        | None => inl IndexError
        | Some a1 =>
            match List.find (fun dtype => PyStr.contains dtype (str_repr a1)) dts with
            | Some dtype => inr (<[1 := py_str ("np." ++ dtype)]> args)
            | None => inr args
            end
        end
    end.
Proof.
  exact (cast_args_find dts args).
Qed.

(** X6: An operator that is not registered raises [KeyError] whatever the
    arguments are. Whenever [_create_op] returns a node, the operator is
    registered with a non-empty [call]; the node carries the [call] and the
    [name] of the operator's entry and the node name that was asked for;
    its class is decided by the operator alone: by its text for the
    assignments and, as the code tests [op is "index"], by the identity of
    the [str] object for the index node. Outside the indexed assignments
    and the casts the arguments and the backend state are passed on
    unchanged. A [str] that is not an interned constant and is no
    assignment symbol, also one whose text is [index] or [cast], gives a
    plain [FortranOp] with the arguments as they came. *)
Theorem create_op_node (self : backend) (st : St) (op : string) (interned : bool)
    (node_name : string) (args : list pyobj) :
  (ops self !! op = None ->
   _create_op add_var _process_update_args_old self st op interned node_name args
   = inl (KeyError op))
  /\ forall node st',
      _create_op add_var _process_update_args_old self st op interned node_name args
      = inr (node, st') ->
      exists entry,
        ops self !! op = Some entry
        /\ call entry <> EmptyString
        /\ call_of node = call entry
        /\ name_of node = name entry
        /\ node_name_of node = node_name
        /\ class_of node = class_for op interned
        /\ (class_for op interned = AssignOp -> indexed_update args = false ->
            args_of node = args /\ st' = st)
        /\ (class_for op interned = AssignOp -> indexed_update args = true ->
            length (args_of node) = 4)
        /\ (class_for op interned = IndexOp ->
            interned = true /\ op = "index" /\ args_of node = args /\ st' = st)
        /\ (class_for op interned = PlainOp ->
            st' = st /\ length (args_of node) = length args
            /\ (is_literal op interned "cast" = false -> args_of node = args))
        /\ (interned = false -> op ∉ assign_symbols ->
            node = FortranOp (call entry) (name entry) node_name args /\ st' = st).
Proof.
  unfold _create_op, class_for. split.
  - intros Hnone. rewrite Hnone. reflexivity.
  - intros node st' H. destruct (ops self !! op) as [entry|]; [|discriminate H].
    exists entry. split; [reflexivity|].
    case_bool_decide as Hcall; [discriminate H|]. split; [exact Hcall|].
    case_bool_decide as Hassign.
    + destruct (indexed_update args) eqn:Hidx.
      * destruct args as [|a0 [|a1 [|a2 rest]]]; try discriminate H.
        destruct (match short_name a2 with
                  | Some _ => inr (a2, st)
                  | None => add_var "state_var" "idx" a2 st
                  end) as [e|[idx st1]]; [discriminate H|].
        destruct (_process_update_args_old a0 a1 idx st1)
          as [e|[[[var upd] idx'] st2]]; [discriminate H|].
        destruct (idx_str_of idx') as [e|idx_str]; [discriminate H|].
        injection H as <- <-. simpl.
        repeat split; try reflexivity; try discriminate; try contradiction.
      * injection H as <- <-. simpl.
        repeat split; try reflexivity; try discriminate; try contradiction.
    + unfold is_literal in *. destruct interned; simpl in *.
      * case_bool_decide as Hindex.
        -- injection H as <- <-. simpl.
           repeat split; try reflexivity; try discriminate; try exact Hindex.
        -- case_bool_decide as Hcast.
           ++ rewrite cast_args_find in H.
              destruct (dtypes self) as [|d dts].
              ** injection H as <- <-. simpl.
                 repeat split; try reflexivity; try discriminate.
              ** destruct (args !! 1) as [a1|]; [|discriminate H].
                 destruct (List.find _ (d :: dts)) as [dtype|];
                   injection H as <- <-; simpl;
                   repeat split; try reflexivity; try discriminate;
                   try apply length_insert.
           ++ injection H as <- <-. simpl.
              repeat split; try reflexivity; try discriminate.
      * injection H as <- <-. simpl.
        repeat split; try reflexivity; try discriminate.
Qed.

End CreateOpNodes.

Section CreateOpNodesWitness.
Import FortranBackend.

Lemma create_op_node_witness :
  _create_op add_var_id process_update_args_id default_backend tt "sparkle" true
    "op_2" []
  = inl (KeyError "sparkle")
  /\ exists entry,
      ops default_backend !! "index" = Some entry
      /\ call entry <> EmptyString
      /\ "pyrates_index" = call entry
      /\ "pyrates_index" = name entry
      /\ "op_3" = "op_3"
      /\ PlainOp = class_for "index" false
      /\ (class_for "index" false = AssignOp ->
          indexed_update [array_of_shape [2]; array_of_shape [2]] = false ->
          [array_of_shape [2]; array_of_shape [2]]
          = [array_of_shape [2]; array_of_shape [2]] /\ tt = tt)
      /\ (class_for "index" false = AssignOp ->
          indexed_update [array_of_shape [2]; array_of_shape [2]] = true ->
          2 = 4)
      /\ (class_for "index" false = IndexOp ->
          false = true /\ "index" = "index"
          /\ [array_of_shape [2]; array_of_shape [2]]
             = [array_of_shape [2]; array_of_shape [2]] /\ tt = tt)
      /\ (class_for "index" false = PlainOp ->
          tt = tt /\ 2 = 2
          /\ (is_literal "index" false "cast" = false ->
              [array_of_shape [2]; array_of_shape [2]]
              = [array_of_shape [2]; array_of_shape [2]]))
      /\ (false = false -> "index" ∉ assign_symbols ->
          FortranOp "pyrates_index" "pyrates_index" "op_3"
            [array_of_shape [2]; array_of_shape [2]]
          = FortranOp (call entry) (name entry) "op_3"
              [array_of_shape [2]; array_of_shape [2]]
            /\ tt = tt).
Proof.
  split.
  - apply (proj1 (create_op_node add_var_id process_update_args_id default_backend tt
                    "sparkle" true "op_2" [])).
    vm_compute. reflexivity.
  - apply (proj2 (create_op_node add_var_id process_update_args_id default_backend tt
                    "index" false "op_3" [array_of_shape [2]; array_of_shape [2]])
             (FortranOp "pyrates_index" "pyrates_index" "op_3"
                [array_of_shape [2]; array_of_shape [2]]) tt).
    vm_compute. reflexivity.
Defined.

End CreateOpNodesWitness.

(** ** Templates from YAML files *)

Section YamlToDict.
Import Yaml.

Context {Content Y : Type}.
Variable str_value : string -> Y.
Variable parse_path : string -> yaml_exn + (string * string * string).
Variable path_join : string -> string -> string.
Variable fs : string -> option Content.
Variable load : Content -> yaml_exn + gmap string (gmap string Y).

(** X10: For a file name without a dot, [to_dict] reads the file with the
    extension [yaml] when there is one, also when a file with the extension
    [yml] exists beside it; it reads the [yml] file when there is no [yaml]
    file; and it raises [FileNotFoundError] when there is neither, without
    loading anything. A file name with a dot is opened as it is. *)
Theorem to_dict_file (path template_name filename directory : string) :
  parse_path path = inr (template_name, filename, directory) ->
  let to_dict := to_dict str_value parse_path path_join fs load in
  let read := read_template str_value fs load path template_name in
  let yaml_file := path_join directory (filename ++ ".yaml") in
  let yml_file := path_join directory (filename ++ ".yml") in
  (PyStr.contains "." filename = true ->
   to_dict path = read (path_join directory filename))
  /\ (PyStr.contains "." filename = false ->
      (is_Some (fs yaml_file) -> to_dict path = read yaml_file)
      /\ (fs yaml_file = None -> is_Some (fs yml_file) -> to_dict path = read yml_file)
      /\ (fs yaml_file = None -> fs yml_file = None ->
          to_dict path
          = inl (FileNotFoundError
                   ("Could not identify file with name " ++ filename
                    ++ " in directory " ++ directory ++ ".")))).
Proof.
  intros Hparse. cbn zeta. unfold to_dict, locate. rewrite Hparse. split.
  - intros ->. reflexivity.
  - intros ->. cbn [probe].
    change ("." ++ "yaml")%string with ".yaml".
    change ("." ++ "yml")%string with ".yml".
    split; [|split].
    + intros [c ->]. reflexivity.
    + intros -> [c ->]. reflexivity.
    + intros -> ->. reflexivity.
Qed.

(** X11: When [to_dict] returns a template, the template was found under its
    name in the loaded file; the result has the path that was passed under
    [path] and the template name under [name], whatever the file gives for
    these two keys, and agrees with the file on every other key. When the
    loaded file has no entry for the template name, [to_dict] raises
    [AttributeError]. *)
Theorem to_dict_template (path template_name filename directory filepath : string)
    (content : Content) (file_dict : gmap string (gmap string Y)) :
  parse_path path = inr (template_name, filename, directory) ->
  locate path_join fs directory filename = inr filepath ->
  fs filepath = Some content ->
  load content = inr file_dict ->
  let to_dict := to_dict str_value parse_path path_join fs load in
  (file_dict !! template_name = None ->
   to_dict path
   = inl (AttributeError
            ("Could not find " ++ template_name ++ " in " ++ filepath ++ ".")))
  /\ forall template_dict,
      file_dict !! template_name = Some template_dict ->
      exists d,
        to_dict path = inr d
        /\ d !! "path" = Some (str_value path)
        /\ d !! "name" = Some (str_value template_name)
        /\ forall key, key <> "path" -> key <> "name" ->
                       d !! key = template_dict !! key.
Proof.
  intros Hparse Hloc Hfs Hload. cbn zeta. unfold to_dict, read_template.
  rewrite Hparse, Hloc, Hfs, Hload. split.
  - intros ->. reflexivity.
  - intros template_dict ->. eexists. split; [reflexivity|]. split; [|split].
    + rewrite lookup_insert_ne by discriminate. apply lookup_insert_eq.
    + apply lookup_insert_eq.
    + intros key Hp Hn. rewrite !lookup_insert_ne by congruence. reflexivity.
Qed.

End YamlToDict.

Section CrossoverFacts.

Import GeneticAlgorithm.
Context {G Sg : Type} `{EqDecision G}.
Variable gt_half : nat -> bool.
Local Open Scope list_scope.

Implicit Types (p : @member G Sg) (pop : list (@member G Sg))
  (parent_pairs : list (@member G Sg * @member G Sg)).

Lemma draw_genes_spec p0 p1 gene_names : forall g k xs ss k',
  draw_genes gt_half p0 p1 gene_names g k = inr (xs, ss, k') ->
  length xs = length gene_names /\ length ss = length gene_names
  /\ k' = k + length gene_names
  /\ forall i x s, xs !! i = Some x -> ss !! i = Some s ->
       gene_from p0 (g + i) x s \/ gene_from p1 (g + i) x s.
Proof.
  induction gene_names as [|gene names IH]; intros g k xs ss k' Hd; simpl in Hd.
  - injection Hd as <- <- <-. repeat split; simpl; try lia.
    intros i x s Hx. rewrite lookup_nil in Hx. discriminate.
  - destruct (genes (if gt_half k then p0 else p1) !! g) as [x0|] eqn:Hg; [|discriminate].
    destruct (sigma (if gt_half k then p0 else p1) !! g) as [s0|] eqn:Hs; [|discriminate].
    destruct (draw_genes gt_half p0 p1 names (S g) (S k)) as [e|[[xs' ss'] k'']] eqn:Hrec;
      [discriminate|].
    injection Hd as <- <- <-.
    destruct (IH _ _ _ _ _ Hrec) as (Hl1 & Hl2 & Hk & Hall).
    repeat split; simpl; try lia.
    intros [|i] x s Hx Hsx; simpl in Hx, Hsx.
    + injection Hx as <-. injection Hsx as <-. rewrite Nat.add_0_r.
      destruct (gt_half k); [left|right]; split; assumption.
    + replace (g + S i) with (S g + i) by lia. eapply Hall; eassumption.
Qed.

Lemma draw_genes_no_value_error p0 p1 gene_names : forall g k,
  draw_genes gt_half p0 p1 gene_names g k <> inl ValueError.
Proof.
  induction gene_names as [|gene names IH]; intros g k; simpl; [discriminate|].
  destruct (genes (if gt_half k then p0 else p1) !! g); [|discriminate].
  destruct (sigma (if gt_half k then p0 else p1) !! g); [|discriminate].
  specialize (IH (S g) (S k)).
  destruct (draw_genes gt_half p0 p1 names (S g) (S k)) as [e|[[xs ss] k']].
  - intros He. apply IH. congruence.
  - discriminate.
Qed.

Lemma draw_genes_child_of p0 p1 gene_names k xs ss k' :
  draw_genes gt_half p0 p1 gene_names 0 k = inr (xs, ss, k') ->
  child_of gene_names p0 p1 (xs, ss).
Proof.
  intros Hd. destruct (draw_genes_spec _ _ _ _ _ _ _ _ Hd) as (Hl1 & Hl2 & _ & Hall).
  split; [exact Hl1|]. split; [exact Hl2|]. exact Hall.
Qed.

Lemma crossover_tries_spec pop gene_names n_tries p0 p1 :
  forall fuel count k cg cs k',
  crossover_tries gt_half fuel pop gene_names n_tries p0 p1 count k = Some (inr (cg, cs, k')) ->
  child_of gene_names p0 p1 (cg, cs) /\ cg ∉ map genes pop.
Proof.
  induction fuel as [|fuel IH]; intros count k cg cs k' Ht; simpl in Ht; [discriminate|].
  destruct (n_tries <? count); [discriminate|].
  destruct (draw_genes gt_half p0 p1 gene_names 0 k) as [e|[[xs ss] k'']] eqn:Hd; [discriminate|].
  unfold already_exists in Ht.
  destruct (bool_decide (xs ∈ map genes pop)) eqn:Hex.
  - eapply IH; eassumption.
  - injection Ht as <- <- <-. split.
    + eapply draw_genes_child_of; eassumption.
    + apply bool_decide_eq_false in Hex. exact Hex.
Qed.

(** X12: every child that [__crossover] returns takes each gene, together
    with its sigma, from one of its two parents, and its genes are those of
    no member of the population; there is one child for every pair. *)
Theorem crossover_children fuel pop gene_names n_tries :
  forall parent_pairs k childs k',
  __crossover gt_half fuel pop gene_names n_tries parent_pairs k = Some (inr (childs, k')) ->
  Forall2 (fun parents child =>
             child_of gene_names parents.1 parents.2 child
             /\ child.1 ∉ map genes pop) parent_pairs childs.
Proof.
  induction parent_pairs as [|[p0 p1] pairs IH]; intros k childs k' Hc; simpl in Hc.
  - injection Hc as <- <-. constructor.
  - destruct (crossover_tries gt_half fuel pop gene_names n_tries p0 p1 0 k)
      as [[e|[[cg cs] k1]]|] eqn:Ht; try discriminate.
    destruct (__crossover gt_half fuel pop gene_names n_tries pairs k1)
      as [[e|[cs' k2]]|] eqn:Hr; try discriminate.
    injection Hc as <- <-. constructor.
    + simpl. eapply crossover_tries_spec; eassumption.
    + eapply IH; eassumption.
Qed.

Lemma crossover_tries_fuel pop gene_names n_tries p0 p1 :
  forall fuel count k,
  0 < fuel -> n_tries + 2 <= fuel + count ->
  crossover_tries gt_half fuel pop gene_names n_tries p0 p1 count k <> None.
Proof.
  induction fuel as [|fuel IH]; intros count k H0 Hf; simpl; [lia|].
  destruct (n_tries <? count) eqn:Hc; [discriminate|].
  apply Nat.ltb_ge in Hc.
  destruct (draw_genes gt_half p0 p1 gene_names 0 k) as [e|[[xs ss] k'']]; [discriminate|].
  destruct (already_exists pop xs); [|discriminate].
  apply IH; lia.
Qed.

Lemma crossover_tries_gives_up pop gene_names n_tries p0 p1 :
  forall fuel count k,
  n_tries + 2 <= fuel + count -> 0 < fuel ->
  crossover_tries gt_half fuel pop gene_names n_tries p0 p1 count k = Some (inl ValueError)
  <-> (forall j, count + j <= n_tries ->
         exists cg cs k',
           draw_genes gt_half p0 p1 gene_names 0 (k + j * length gene_names) = inr (cg, cs, k')
           /\ cg ∈ map genes pop).
Proof.
  induction fuel as [|fuel IH]; intros count k Hf H0; [lia|]. simpl.
  destruct (n_tries <? count) eqn:Hc.
  - apply Nat.ltb_lt in Hc. split; [|reflexivity]. intros _ j Hj. lia.
  - apply Nat.ltb_ge in Hc.
    destruct (draw_genes gt_half p0 p1 gene_names 0 k) as [e|[[xs ss] k1]] eqn:Hd.
    + split.
      * intros He. injection He as ->.
        destruct (draw_genes_no_value_error _ _ _ _ _ Hd).
      * intros Hall. destruct (Hall 0) as (cg & cs & k' & Hd' & _); [lia|].
        simpl in Hd'. rewrite Nat.add_0_r in Hd'. congruence.
    + destruct (draw_genes_spec _ _ _ _ _ _ _ _ Hd) as (_ & _ & Hk1 & _).
      unfold already_exists. destruct (bool_decide (xs ∈ map genes pop)) eqn:Hex.
      * apply bool_decide_eq_true in Hex. rewrite IH by lia. split.
        -- intros Hall [|j] Hj.
           ++ exists xs, ss, k1. simpl. rewrite Nat.add_0_r. split; assumption.
           ++ destruct (Hall j) as (cg & cs & k' & Hd' & Hin); [lia|].
              exists cg, cs, k'. split; [|exact Hin].
              rewrite <- Hd'. f_equal. subst k1. simpl. lia.
        -- intros Hall j Hj. destruct (Hall (S j)) as (cg & cs & k' & Hd' & Hin); [lia|].
           exists cg, cs, k'. split; [|exact Hin].
           rewrite <- Hd'. f_equal. subst k1. simpl. lia.
      * apply bool_decide_eq_false in Hex. split; [discriminate|].
        intros Hall. destruct (Hall 0) as (cg & cs & k' & Hd' & Hin); [lia|].
        simpl in Hd'. rewrite Nat.add_0_r in Hd'. rewrite Hd in Hd'.
        injection Hd' as <- <- <-. contradiction.
Qed.

Lemma draw_genes_total p0 p1 gene_names : forall g k,
  g + length gene_names <= length (genes p0) ->
  g + length gene_names <= length (genes p1) ->
  g + length gene_names <= length (sigma p0) ->
  g + length gene_names <= length (sigma p1) ->
  exists xs ss k', draw_genes gt_half p0 p1 gene_names g k = inr (xs, ss, k').
Proof.
  induction gene_names as [|gene names IH]; intros g k H0 H1 H2 H3; simpl in *.
  - eauto.
  - destruct (lookup_lt_is_Some_2 (genes (if gt_half k then p0 else p1)) g) as [x ->].
    { destruct (gt_half k); lia. }
    destruct (lookup_lt_is_Some_2 (sigma (if gt_half k then p0 else p1)) g) as [s ->].
    { destruct (gt_half k); lia. }
    destruct (IH (S g) (S k)) as (xs & ss & k' & ->); try lia.
    eauto.
Qed.

(** X13: [__crossover] ends: every pair of parents takes at most
    [n_tries + 2] rounds of its loop, so with that many rounds allowed the
    result is a list of children or an exception. *)
Theorem crossover_ends fuel pop gene_names n_tries :
  forall parent_pairs k,
  n_tries + 2 <= fuel ->
  __crossover gt_half fuel pop gene_names n_tries parent_pairs k <> None.
Proof.
  intros pairs k Hf. revert k.
  induction pairs as [|[p0 p1] pairs IH]; intros k; simpl; [discriminate|].
  pose proof (crossover_tries_fuel pop gene_names n_tries p0 p1 fuel 0 k) as Ht.
  destruct (crossover_tries gt_half fuel pop gene_names n_tries p0 p1 0 k)
    as [[e|[[cg cs] k1]]|]; [discriminate| |exfalso; apply Ht; [lia|lia|reflexivity]].
  specialize (IH k1).
  destruct (__crossover gt_half fuel pop gene_names n_tries pairs k1)
    as [[e|[cs' k2]]|]; [discriminate|discriminate|exact IH].
Qed.

(** X14: for a pair of parents the loop raises [ValueError] exactly when the
    first [n_tries + 1] candidates are all drawn without an exception and
    all exist in the population: the test [count > n_tries] allows one
    candidate more than [n_tries]. The [j]-th candidate is drawn from the
    random numbers [k + j * length gene_names] on. *)
Theorem crossover_gives_up fuel pop gene_names n_tries p0 p1 k :
  n_tries + 2 <= fuel ->
  crossover_tries gt_half fuel pop gene_names n_tries p0 p1 0 k = Some (inl ValueError)
  <-> (forall j, j <= n_tries ->
         exists cg cs k',
           draw_genes gt_half p0 p1 gene_names 0 (k + j * length gene_names) = inr (cg, cs, k')
           /\ cg ∈ map genes pop).
Proof.
  intros Hf. apply (crossover_tries_gives_up pop gene_names n_tries p0 p1 fuel 0 k); lia.
Qed.

(** X15: when the population holds every mix of the genes of the first pair
    of parents (as a full grid of gene values does, or a pool of a single
    gene), [__crossover] raises [ValueError] whatever the random numbers
    are. *)
Theorem crossover_mixes_in_population fuel pop gene_names n_tries p0 p1
    parent_pairs k :
  n_tries + 2 <= fuel ->
  length (genes p0) = length gene_names ->
  length (genes p1) = length gene_names ->
  length gene_names <= length (sigma p0) ->
  length gene_names <= length (sigma p1) ->
  (forall cg : list G,
     length cg = length gene_names ->
     (forall g x, cg !! g = Some x -> genes p0 !! g = Some x \/ genes p1 !! g = Some x) ->
     cg ∈ map genes pop) ->
  __crossover gt_half fuel pop gene_names n_tries ((p0, p1) :: parent_pairs) k
  = Some (inl ValueError).
Proof.
  intros Hf H0 H1 H2 H3 Hclosed. simpl.
  assert (Ht : crossover_tries gt_half fuel pop gene_names n_tries p0 p1 0 k
               = Some (inl ValueError)).
  { apply (crossover_tries_gives_up pop gene_names n_tries p0 p1 fuel 0 k); [lia|lia|].
    intros j _.
    destruct (draw_genes_total p0 p1 gene_names 0 (k + j * length gene_names))
      as (xs & ss & k' & Hd); simpl; try lia.
    exists xs, ss, k'. split; [exact Hd|].
    destruct (draw_genes_spec _ _ _ _ _ _ _ _ Hd) as (Hl1 & Hl2 & _ & Hall).
    apply Hclosed; [exact Hl1|].
    intros g x Hx.
    destruct (lookup_lt_is_Some_2 ss g) as [s Hs].
    { rewrite Hl2, <- Hl1. apply lookup_lt_is_Some_1. eauto. }
    destruct (Hall g x s Hx Hs) as [[Hg _]|[Hg _]]; [left|right]; exact Hg. }
  rewrite Ht. reflexivity.
Qed.

End CrossoverFacts.


Section CrossoverWitnesses.

Import GeneticAlgorithm.
Local Open Scope list_scope.

Lemma crossover_children_witness :
  Forall2 (fun parents child =>
             child_of example_gene_names parents.1 parents.2 child
             /\ child.1 ∉ map genes example_ends)
          example_parents [([0%Z; 1%Z], [1; 1])].
Proof.
  apply (crossover_children Nat.even 7 example_ends example_gene_names 5
           example_parents 0 [([0%Z; 1%Z], [1; 1])] 2).
  vm_compute. reflexivity.
Defined.

Lemma crossover_ends_witness :
  __crossover Nat.even 7 example_grid example_gene_names 5 example_parents 0 <> None.
Proof.
  apply (crossover_ends Nat.even 7 example_grid example_gene_names 5 example_parents 0).
  vm_compute. lia.
Defined.

Lemma crossover_gives_up_witness :
  crossover_tries Nat.even 7 example_grid example_gene_names 5
    (example_member 0 0) (example_member 1 1) 0 0 = Some (inl ValueError)
  <-> (forall j, j <= 5 ->
         exists cg cs k',
           draw_genes Nat.even (example_member 0 0) (example_member 1 1)
             example_gene_names 0 (0 + j * length example_gene_names) = inr (cg, cs, k')
           /\ cg ∈ map genes example_grid).
Proof.
  apply (crossover_gives_up Nat.even 7 example_grid example_gene_names 5
           (example_member 0 0) (example_member 1 1) 0).
  vm_compute. lia.
Defined.

Lemma crossover_mixes_in_population_witness :
  __crossover Nat.even 7 example_grid example_gene_names 5 example_parents 0
  = Some (inl ValueError).
Proof.
  apply (crossover_mixes_in_population Nat.even 7 example_grid example_gene_names 5
           (example_member 0 0) (example_member 1 1) [] 0).
  - vm_compute. lia.
  - reflexivity.
  - reflexivity.
  - vm_compute. lia.
  - vm_compute. lia.
  - intros [|a [|b [|c cg]]] Hl Hmix; try discriminate Hl.
    destruct (Hmix 0 a eq_refl) as [Ha|Ha]; injection Ha as <-;
      (destruct (Hmix 1 b eq_refl) as [Hb|Hb]; injection Hb as <-);
      apply (bool_decide_unpack _); vm_compute; exact I.
Defined.

End CrossoverWitnesses.

Section YamlToDictWitnesses.

Import Yaml.

Lemma to_dict_file_witness :
  example_to_dict example_path
  = read_template (fun s => s) example_fs example_load example_path "PC"
      "model_templates/jansenrit.yml".
Proof.
  pose proof (to_dict_file (fun s => s) example_parse_path example_path_join
                example_fs example_load example_path "PC" "jansenrit" "model_templates"
                eq_refl) as H.
  cbn zeta in H. destruct H as [_ H]. destruct (H eq_refl) as (_ & Hyml & _).
  apply Hyml.
  - reflexivity.
  - eexists. reflexivity.
Defined.

Lemma to_dict_template_witness :
  exists d,
    example_to_dict example_path = inr d
    /\ d !! "path" = Some example_path
    /\ d !! "name" = Some "PC"
    /\ forall key, key <> "path" -> key <> "name" ->
                   d !! key = example_template !! key.
Proof.
  pose proof (to_dict_template (fun s => s) example_parse_path example_path_join
                example_fs example_load example_path "PC" "jansenrit" "model_templates"
                "model_templates/jansenrit.yml"
                "PC: {base: OperatorTemplate, path: elsewhere}"
                (<["PC" := example_template]> ∅)
                eq_refl eq_refl eq_refl eq_refl) as H.
  cbn zeta in H. destruct H as [_ H].
  apply (H example_template). apply lookup_insert_eq.
Defined.

End YamlToDictWitnesses.
